(** * anuga.utilities.plot_utils: reading, combining, centroid averaging and
      transect selection of sww output

    A shallow embedding of [plot_utils.py] and the properties of its
    functions [read_output], [get_output], [combine_outputs],
    [get_centroid_values], [get_centroids] and [near_transect].

    - Numbers are IEEE binary64 values, Python's [float] and numpy's
      [float64], taken from the kernel's primitive floats; the variables of
      a store are read as [float64] arrays.
    - A one-dimensional numpy array is a list; a two-dimensional one is its
      second dimension together with the list of its rows.  Broadcasting,
      integer-array indexing with negative indices, row assignment and
      [numpy.append] are written out with the exceptions numpy raises.
    - On arrays [a ** 2] is numpy's square and [a ** 0.5] its square root;
      on Python floats [**] and [/] raise as Python's do.
    - A Python computation returns a value or raises an exception, named by
      its class.  What [combine_outputs] prints is not modelled. *)

From Stdlib Require Import ZArith List String Bool Lia Floats Sorted.
From stdpp Require Import base list.
Import ListNotations.

Local Open Scope string_scope.

(** ** Exceptions *)

(** A Python computation either returns a value or raises; an exception is
    identified by the name of its class. *)
Inductive result (A : Type) : Type :=
| Ok (a : A)
| Raise (exc : string).

Arguments Ok {A} a.
Arguments Raise {A} exc.

Definition bind {A B : Type} (m : result A) (k : A -> result B) : result B :=
  match m with
  | Ok a => k a
  | Raise e => Raise e
  end.

Notation "'let*' x := m 'in' k" := (bind m (fun x => k))
  (at level 10, x name, m at level 100, k at level 200).

(** [for i in range(n): s = body(i, s)], started at [i]. *)
Fixpoint for_range {S : Type} (body : nat -> S -> result S)
    (i n : nat) (s : S) : result S :=
  match n with
  | O => Ok s
  | Datatypes.S n' => let* s' := body i s in for_range body (Datatypes.S i) n' s'
  end.

(** [mapM]: a comprehension whose element expression may raise. *)
Fixpoint mapM {A B : Type} (f : A -> result B) (l : list A) : result (list B) :=
  match l with
  | [] => Ok []
  | a :: l' => let* b := f a in let* bs := mapM f l' in Ok (b :: bs)
  end.

(** ** Binary64 arithmetic *)

Module F.
Local Open Scope float_scope.

(** The literal [1.0e-06], as binary64 rounds it. *)
Definition eps : float := 0x1.0c6f7a0b5ed8dp-20.
Definition three : float := 3.
(** A boolean used as a number: [True] is [1.0], [False] is [0.0]. *)
Definition of_bool (b : bool) : float := if b then 1 else 0.
(** numpy's [a > b]. *)
Definition gtb (a b : float) : bool := b <? a.
(** numpy's [a ** 2] (square) and [a ** 0.5] (sqrt) on arrays. *)
Definition square (a : float) : float := a * a.
Definition pow_half (a : float) : float := sqrt a.
End F.

(** Python's scalar [float] operations, which raise where numpy's do not. *)
Module py.
Local Open Scope float_scope.

(** [a / b]: division by a zero of either sign raises. *)
Definition truediv (a b : float) : result float :=
  if b =? 0 then Raise "ZeroDivisionError" else Ok (a / b).

(** [a ** 2]: an overflow from a finite operand raises. *)
Definition pow2 (a : float) : result float :=
  let r := a * a in
  if is_finite a && is_infinity r then Raise "OverflowError" else Ok r.

(** [a ** 0.5]: a negative operand raises (Python 2); a zero of either
    sign gives [0.0]. *)
Definition pow_half (a : float) : result float :=
  if a <? 0 then Raise "ValueError"
  else if a =? 0 then Ok 0
  else Ok (sqrt a).
End py.

(** ** numpy arrays *)

Module np.
Local Open Scope float_scope.

(** Two lengths broadcast together when they agree or one of them is 1. *)
Definition compatible (n m : nat) : bool :=
  (n =? m)%nat || (n =? 1)%nat || (m =? 1)%nat.

Definition bshape (n m : nat) : nat := if (n =? 1)%nat then m else n.

Definition bzip {A B C : Type} (f : A -> B -> C)
    (a : list A) (b : list B) : list C :=
  if (length a =? length b)%nat then zip_with f a b
  else match a, b with
       | [a0], _ => map (f a0) b
       | _, [b0] => map (fun v => f v b0) a
       | _, _ => []
       end.

(** An elementwise binary operation on one-dimensional arrays. *)
Definition broadcast {A B C : Type} (f : A -> B -> C)
    (a : list A) (b : list B) : result (list C) :=
  if compatible (length a) (length b) then Ok (bzip f a b)
  else Raise "ValueError".

(** A two-dimensional float array: its second dimension and its rows. *)
Record ndarray2 : Type := Array2 { ncols : nat; rows : list (list float) }.

Definition nrows (M : ndarray2) : nat := length (rows M).

Definition map2 (f : float -> float) (M : ndarray2) : ndarray2 :=
  Array2 (ncols M) (map (map f) (rows M)).

Definition broadcast2 (f : float -> float -> float)
    (M N : ndarray2) : result ndarray2 :=
  if compatible (nrows M) (nrows N) && compatible (ncols M) (ncols N)
  then Ok (Array2 (bshape (ncols M) (ncols N))
                  (bzip (bzip f) (rows M) (rows N)))
  else Raise "ValueError".

(** [M[i,:]] *)
Definition getrow (M : ndarray2) (i : nat) : result (list float) :=
  match rows M !! i with
  | Some r => Ok r
  | None => Raise "IndexError"
  end.

(** [M[i,:] = v] *)
Definition setrow (M : ndarray2) (i : nat) (v : list float)
    : result ndarray2 :=
  if (i <? nrows M)%nat then
    if (length v =? ncols M)%nat then
      Ok (Array2 (ncols M) (<[i := v]> (rows M)))
    else match v with
         | [v0] => Ok (Array2 (ncols M)
                              (<[i := replicate (ncols M) v0]> (rows M)))
         | _ => Raise "ValueError"
         end
  else Raise "IndexError".

(** An integer index into an axis of length [n]; negative indices count
    from the end. *)
Definition norm_index (n : nat) (i : Z) : option nat :=
  if (0 <=? i)%Z && (i <? Z.of_nat n)%Z then Some (Z.to_nat i)
  else if (- Z.of_nat n <=? i)%Z && (i <? 0)%Z
       then Some (Z.to_nat (Z.of_nat n + i))
       else None.

Definition getitem {A : Type} (a : list A) (i : Z) : result A :=
  match norm_index (length a) i with
  | Some k => match a !! k with
              | Some v => Ok v
              | None => Raise "IndexError"
              end
  | None => Raise "IndexError"
  end.

(** [a[idx]] for an integer index array [idx]. *)
Definition take {A : Type} (a : list A) (idx : list Z) : result (list A) :=
  mapM (getitem a) idx.

(** [M[:, idx]] *)
Definition take_cols (M : ndarray2) (idx : list Z) : result ndarray2 :=
  if forallb (fun i => bool_decide (is_Some (norm_index (ncols M) i))) idx
  then let* rs := mapM (fun r => take r idx) (rows M) in
       Ok (Array2 (length idx) rs)
  else Raise "IndexError".

(** [m.nonzero()[0]]: the positions of the true entries, ascending. *)
Fixpoint nonzero_from (i : Z) (m : list bool) : list Z :=
  match m with
  | [] => []
  | b :: m' =>
      if b then i :: nonzero_from (i + 1) m' else nonzero_from (i + 1) m'
  end.

Definition nonzero (m : list bool) : list Z := nonzero_from 0 m.

(** [numpy.append(M, N, axis=0)] *)
Definition append0 (M N : ndarray2) : result ndarray2 :=
  if (ncols M =? ncols N)%nat
  then Ok (Array2 (ncols M) (rows M ++ rows N)%list)
  else Raise "ValueError".

(** [(a == b).all()]; when the shapes do not broadcast, [a == b] is the
    plain [False], which has no method [all]. *)
Definition all_equal {A : Type} (eqb : A -> A -> bool)
    (a b : list A) : result bool :=
  if compatible (length a) (length b)
  then Ok (forallb (fun v : bool => v) (bzip eqb a b))
  else Raise "AttributeError".
End np.

Abbreviation ndarray2 := np.ndarray2.

(** ** The result store *)

(** The variables of an sww file, with the ranks and element types an sww
    file declares for them; a variable may be absent. *)
Record sww : Type := Sww {
  var_x : option (list float);
  var_y : option (list float);
  var_stage : option ndarray2;
  var_elevation : option (list float);
  var_xmomentum : option ndarray2;
  var_ymomentum : option ndarray2;
  var_time : option (list float);
  var_volumes : option (list (Z * Z * Z))
}.

(** [fid.variables[name].getValue()] *)
Definition getValue {A : Type} (v : option A) : result A :=
  match v with
  | Some a => Ok a
  | None => Raise "KeyError"
  end.

(** ** The objects built by [get_output] and [get_centroids] *)

Module Output.
Record t : Type := mk {
  x : list float;
  y : list float;
  time : list float;
  vols : list (Z * Z * Z);
  stage : ndarray2;
  elev : list float;
  xmom : ndarray2;
  ymom : ndarray2;
  xvel : ndarray2;
  yvel : ndarray2;
  vel : ndarray2;
  minimum_allowed_height : float
}.
End Output.

Module Centroids.
Record t : Type := mk {
  time : list float;
  x : list float;
  y : list float;
  stage : ndarray2;
  xmom : ndarray2;
  ymom : ndarray2;
  elev : list float;
  xvel : ndarray2;
  yvel : ndarray2;
  vel : ndarray2
}.
End Centroids.

(** What [near_transect] asks of its argument [p]: attributes [x] and [y]. *)
Class HasPoints (P : Type) : Type := {
  points_x : P -> list float;
  points_y : P -> list float
}.

#[export] Instance Output_points : HasPoints Output.t :=
  {| points_x := Output.x; points_y := Output.y |}.
#[export] Instance Centroids_points : HasPoints Centroids.t :=
  {| points_x := Centroids.x; points_y := Centroids.y |}.

(** ** Velocity from momentum, one row at a time *)

Section Rows.
Local Open Scope float_scope.

(** [mom / (stage - elev + 1.0e-06) * (stage > elev + h)] on rows. *)
Definition velocity_row (mom stage_i elev : list float) (h : float)
    : result (list float) :=
  let* depth := np.broadcast PrimFloat.sub stage_i elev in
  let* q := np.broadcast PrimFloat.div mom (map (fun d => d + F.eps) depth) in
  let* wet := np.broadcast F.gtb stage_i (map (fun e => e + h) elev) in
  np.broadcast (fun v w => v * F.of_bool w) q wet.

(** [vel * (stage - elev + 1.0e-06) * (stage > elev + h)] on rows. *)
Definition momentum_row (velo stage_i elev : list float) (h : float)
    : result (list float) :=
  let* depth := np.broadcast PrimFloat.sub stage_i elev in
  let* q := np.broadcast PrimFloat.mul velo (map (fun d => d + F.eps) depth) in
  let* wet := np.broadcast F.gtb stage_i (map (fun e => e + h) elev) in
  np.broadcast (fun v w => v * F.of_bool w) q wet.

(** [(xvel**2 + yvel**2)**0.5] *)
Definition speed (xvel yvel : ndarray2) : result ndarray2 :=
  let* s := np.broadcast2 PrimFloat.add (np.map2 F.square xvel)
                              (np.map2 F.square yvel) in
  Ok (np.map2 F.pow_half s).
End Rows.

(** ** [read_output], [get_output], [combine_outputs] *)

Section Files.
Local Open Scope float_scope.

(** Opening a file by name: the files that exist and what they hold. *)
Variable NetCDFFile : string -> result sww.

(** The body of the loop over time steps in [read_output]. *)
Definition read_output_body (xmom ymom stage : ndarray2)
    (elev : list float) (minimum_allowed_height : float)
    (i : nat) (s : ndarray2 * ndarray2) : result (ndarray2 * ndarray2) :=
  let '(xvel, yvel) := s in
  let* mx := np.getrow xmom i in
  let* st := np.getrow stage i in
  let* vx := velocity_row mx st elev minimum_allowed_height in
  let* xvel := np.setrow xvel i vx in
  let* my := np.getrow ymom i in
  let* st := np.getrow stage i in
  let* vy := velocity_row my st elev minimum_allowed_height in
  let* yvel := np.setrow yvel i vy in
  Ok (xvel, yvel).

Definition read_output (filename : string) (minimum_allowed_height : float)
    : result Output.t :=
  let* fid := NetCDFFile filename in
  let* x := getValue (var_x fid) in
  let* y := getValue (var_y fid) in
  let* stage := getValue (var_stage fid) in
  let* elev := getValue (var_elevation fid) in
  let* xmom := getValue (var_xmomentum fid) in
  let* ymom := getValue (var_ymomentum fid) in
  let* time := getValue (var_time fid) in
  let* vols := getValue (var_volumes fid) in
  let xvel := np.map2 (fun v => v * 0) xmom in
  let yvel := np.map2 (fun v => v * 0) ymom in
  let* vv := for_range
               (read_output_body xmom ymom stage elev minimum_allowed_height)
               0 (np.nrows xmom) (xvel, yvel) in
  let '(xvel, yvel) := vv in
  let* vel := speed xvel yvel in
  Ok (Output.mk x y time vols stage elev xmom ymom xvel yvel vel
                minimum_allowed_height).

Definition get_output (filename : string) (minimum_allowed_height : float)
    : result Output.t :=
  read_output filename minimum_allowed_height.

Definition triple_eqb (a b : Z * Z * Z) : bool :=
  let '(a0, a1, a2) := a in
  let '(b0, b1, b2) := b in
  (a0 =? b0)%Z && (a1 =? b1)%Z && (a2 =? b2)%Z.

Definition assert (c : bool) : result unit :=
  if c then Ok tt else Raise "AssertionError".

(** The [else] branch of the loop of [combine_outputs]: the checks, then
    the appends. *)
Definition combine_append (p1 p_tmp : Output.t) : result Output.t :=
  let* ex := np.all_equal PrimFloat.eqb (Output.x p1) (Output.x p_tmp) in
  let* _ := assert ex in
  let* ey := np.all_equal PrimFloat.eqb (Output.y p1) (Output.y p_tmp) in
  let* _ := assert ey in
  let* ev := np.all_equal triple_eqb (Output.vols p1) (Output.vols p_tmp) in
  let* _ := assert ev in
  let time := (Output.time p1 ++ Output.time p_tmp)%list in
  let* stage := np.append0 (Output.stage p1) (Output.stage p_tmp) in
  let* xmom := np.append0 (Output.xmom p1) (Output.xmom p_tmp) in
  let* ymom := np.append0 (Output.ymom p1) (Output.ymom p_tmp) in
  let* xvel := np.append0 (Output.xvel p1) (Output.xvel p_tmp) in
  let* yvel := np.append0 (Output.yvel p1) (Output.yvel p_tmp) in
  let* vel := np.append0 (Output.vel p1) (Output.vel p_tmp) in
  Ok (Output.mk (Output.x p1) (Output.y p1) time (Output.vols p1) stage
                (Output.elev p1) xmom ymom xvel yvel vel
                (Output.minimum_allowed_height p1)).

(** [for i, filename in enumerate(filename_list)], with [p1] unbound
    until the first iteration has run. *)
Fixpoint combine_loop (filename_list : list string)
    (minimum_allowed_height : float) (i : nat) (p1 : option Output.t)
    : result (option Output.t) :=
  match filename_list with
  | [] => Ok p1
  | filename :: rest =>
      let* p_tmp := get_output filename minimum_allowed_height in
      let* p1' :=
        if (i =? 0)%nat then Ok p_tmp
        else match p1 with
             | Some q => combine_append q p_tmp
             | None => Raise "UnboundLocalError"
             end in
      combine_loop rest minimum_allowed_height (S i) (Some p1')
  end.

Definition combine_outputs (filename_list : list string)
    (minimum_allowed_height : float) : result Output.t :=
  let* r := combine_loop filename_list minimum_allowed_height 0 None in
  match r with
  | None => Raise "UnboundLocalError"
  | Some p1 =>
      Ok (Output.mk (Output.x p1) (Output.y p1) (Output.time p1)
                    (Output.vols p1) (Output.stage p1) (Output.elev p1)
                    (Output.xmom p1) (Output.ymom p1) (Output.xvel p1)
                    (Output.yvel p1) (Output.vel p1)
                    (Output.minimum_allowed_height p1))
  end.
End Files.

(** ** [get_centroid_values], [get_centroids] *)

Section Centroid.
Local Open Scope float_scope.

(** [(a[vols0] + a[vols1] + a[vols2]) / 3.0] *)
Definition centroid1 (a : list float) (vols0 vols1 vols2 : list Z)
    : result (list float) :=
  let* a0 := np.take a vols0 in
  let* a1 := np.take a vols1 in
  let* s01 := np.broadcast PrimFloat.add a0 a1 in
  let* a2 := np.take a vols2 in
  let* s := np.broadcast PrimFloat.add s01 a2 in
  Ok (map (fun v => v / F.three) s).

(** [(M[:,vols0] + M[:,vols1] + M[:,vols2]) / 3.0] *)
Definition centroid2 (M : ndarray2) (vols0 vols1 vols2 : list Z)
    : result ndarray2 :=
  let* m0 := np.take_cols M vols0 in
  let* m1 := np.take_cols M vols1 in
  let* s01 := np.broadcast2 PrimFloat.add m0 m1 in
  let* m2 := np.take_cols M vols2 in
  let* s := np.broadcast2 PrimFloat.add s01 m2 in
  Ok (np.map2 (fun v => v / F.three) s).

(** The body shared by the two loops over time steps: row [i] of [xout]
    and of [yout] is computed by [row] from row [i] of [xin], of [yin] and
    of [stage_cent]. *)
Definition centroid_body
    (row : list float -> list float -> list float -> float
           -> result (list float))
    (xin yin stage_cent : ndarray2) (elev_cent : list float) (h : float)
    (i : nat) (s : ndarray2 * ndarray2) : result (ndarray2 * ndarray2) :=
  let '(xout, yout) := s in
  let* rx := np.getrow xin i in
  let* st := np.getrow stage_cent i in
  let* vx := row rx st elev_cent h in
  let* xout := np.setrow xout i vx in
  let* ry := np.getrow yin i in
  let* st := np.getrow stage_cent i in
  let* vy := row ry st elev_cent h in
  let* yout := np.setrow yout i vy in
  Ok (xout, yout).

Definition get_centroid_values (p : Output.t) (velocity_extrapolation : bool)
    : result Centroids.t :=
  let vols0 := map (fun v : Z * Z * Z => fst (fst v)) (Output.vols p) in
  let vols1 := map (fun v : Z * Z * Z => snd (fst v)) (Output.vols p) in
  let vols2 := map (fun v : Z * Z * Z => snd v) (Output.vols p) in
  let* x_cent := centroid1 (Output.x p) vols0 vols1 vols2 in
  let* y_cent := centroid1 (Output.y p) vols0 vols1 vols2 in
  let* stage_cent := centroid2 (Output.stage p) vols0 vols1 vols2 in
  let* elev_cent := centroid1 (Output.elev p) vols0 vols1 vols2 in
  let h := Output.minimum_allowed_height p in
  let* r :=
    if velocity_extrapolation then
      let* xvel_cent := centroid2 (Output.xvel p) vols0 vols1 vols2 in
      let* yvel_cent := centroid2 (Output.yvel p) vols0 vols1 vols2 in
      let xmom_cent := np.map2 (fun v => v * 0) stage_cent in
      let ymom_cent := np.map2 (fun v => v * 0) stage_cent in
      let t := length (Output.time p) in
      let* mm := for_range
                   (centroid_body momentum_row xvel_cent yvel_cent
                                  stage_cent elev_cent h)
                   0 t (xmom_cent, ymom_cent) in
      Ok (mm, (xvel_cent, yvel_cent))
    else
      let* xmom_cent := centroid2 (Output.xmom p) vols0 vols1 vols2 in
      let* ymom_cent := centroid2 (Output.ymom p) vols0 vols1 vols2 in
      let xvel_cent := np.map2 (fun v => v * 0) stage_cent in
      let yvel_cent := np.map2 (fun v => v * 0) stage_cent in
      let t := length (Output.time p) in
      let* vv := for_range
                   (centroid_body velocity_row xmom_cent ymom_cent
                                  stage_cent elev_cent h)
                   0 t (xvel_cent, yvel_cent) in
      Ok ((xmom_cent, ymom_cent), vv) in
  let '((xmom_cent, ymom_cent), (xvel_cent, yvel_cent)) := r in
  let* vel_cent := speed xvel_cent yvel_cent in
  Ok (Centroids.mk (Output.time p) x_cent y_cent stage_cent xmom_cent
                   ymom_cent elev_cent xvel_cent yvel_cent vel_cent).

Definition get_centroids (p : Output.t) (velocity_extrapolation : bool)
    : result Centroids.t :=
  get_centroid_values p velocity_extrapolation.
End Centroid.

(** ** [near_transect] *)

Section Transect.
Local Open Scope float_scope.
Context {P : Type} `{HasPoints P}.

(** The coefficients [a], [b], [c] of the line [a*x + b*y + c = 0]. *)
Definition line_equation (x1 y1 x2 y2 : float)
    : result (float * float * float) :=
  if negb (x1 =? x2) then
    let* gradient := py.truediv (y2 - y1) (x2 - x1) in
    let intercept := y1 - gradient * x1 in
    Ok (- gradient, 1, - intercept)
  else
    Ok (1, 0, - x2).

Definition near_transect (p : P) (point1 point2 : float * float)
    (tol : float) : result (list Z * list float) :=
  let x1 := fst point1 in
  let y1 := snd point1 in
  let x2 := fst point2 in
  let y2 := snd point2 in
  let* abc := line_equation x1 y1 x2 y2 in
  let '(a, b, c) := abc in
  let* a2 := py.pow2 a in
  let* b2 := py.pow2 b in
  let* den := py.pow_half (a2 + b2) in
  let* inv_denom := py.truediv 1 den in
  let* s := np.broadcast PrimFloat.add
              (map (fun v => v * a) (points_x p))
              (map (fun v => v * b) (points_y p)) in
  let distp := map (fun v => abs (v + c) * inv_denom) s in
  let near_points := np.nonzero (map (fun d => d <? tol) distp) in
  let g1x := x2 - x1 in
  let g1y := y2 - y1 in
  let* gx2 := py.pow2 g1x in
  let* gy2 := py.pow2 g1y in
  let* g1_norm := py.pow_half (gx2 + gy2) in
  let* g1x := py.truediv g1x g1_norm in
  let* g1y := py.truediv g1x g1_norm in
  let* sel_x := np.take (points_x p) near_points in
  let g2x := map (fun v => v - x1) sel_x in
  let* sel_y := np.take (points_y p) near_points in
  let g2y := map (fun v => v - y1) sel_y in
  let* local_coord := np.broadcast PrimFloat.add
                        (map (fun v => g1x * v) g2x)
                        (map (fun v => g1y * v) g2y) in
  Ok (near_points, local_coord).
End Transect.

(** ** Vocabulary of the statements *)

Section Vocabulary.
Local Open Scope float_scope.

(** Entry [(t, i)] of a two-dimensional array, when there is one. *)
Definition get2 (M : ndarray2) (t i : nat) : option float :=
  match np.rows M !! t with
  | Some r => r !! i
  | None => None
  end.

(** The velocity formula at one time step and one spatial index. *)
Definition velocity_at (mom stage elev h : float) : float :=
  mom / (stage - elev + F.eps) * F.of_bool (F.gtb stage (elev + h)).

(** Its inverse, used when velocities are averaged. *)
Definition momentum_at (velo stage elev h : float) : float :=
  velo * (stage - elev + F.eps) * F.of_bool (F.gtb stage (elev + h)).

Definition speed_at (vx vy : float) : float :=
  sqrt (vx * vx + vy * vy).

(** The average of three vertex values. *)
Definition mean3 (f0 f1 f2 : float) : float := (f0 + f1 + f2) / F.three.

(** The rows computed by [velocity_row] and [momentum_row] when the three
    rows have one length. *)
Definition velocity_list (mom stage_i elev : list float) (h : float)
    : list float :=
  zip_with (fun v w => v * F.of_bool w)
    (zip_with PrimFloat.div mom
       (map (fun d => d + F.eps) (zip_with PrimFloat.sub stage_i elev)))
    (zip_with F.gtb stage_i (map (fun e => e + h) elev)).

Definition momentum_list (velo stage_i elev : list float) (h : float)
    : list float :=
  zip_with (fun v w => v * F.of_bool w)
    (zip_with PrimFloat.mul velo
       (map (fun d => d + F.eps) (zip_with PrimFloat.sub stage_i elev)))
    (zip_with F.gtb stage_i (map (fun e => e + h) elev)).

(** A two-dimensional array of [T] rows and [N] columns. *)
Definition shaped (T N : nat) (M : ndarray2) : bool :=
  (np.nrows M =? T)%nat && (np.ncols M =? N)%nat
  && forallb (fun r : list float => (length r =? N)%nat) (np.rows M).

(** A store that holds every variable, with the time series on [T] time
    steps and [N] points and the elevation on [N] points.  Nothing is
    asked of [time] and [volumes] beyond their presence. *)
Definition sww_shaped (T N : nat) (fid : sww) : bool :=
  match var_x fid, var_y fid, var_stage fid, var_elevation fid,
        var_xmomentum fid, var_ymomentum fid, var_time fid,
        var_volumes fid with
  | Some _, Some _, Some stage, Some elev, Some xmom, Some ymom,
    Some _, Some _ =>
      shaped T N stage && shaped T N xmom && shaped T N ymom
      && (length elev =? N)%nat
  | _, _, _, _, _, _, _, _ => false
  end.

Definition valid_triangle (N : nat) (v : Z * Z * Z) : bool :=
  let '(v0, v1, v2) := v in
  bool_decide (is_Some (np.norm_index N v0))
  && bool_decide (is_Some (np.norm_index N v1))
  && bool_decide (is_Some (np.norm_index N v2)).

(** An [Output] on [T] time steps and [N] points whose triangles index
    existing points. *)
Definition output_shaped (T N : nat) (p : Output.t) : bool :=
  (length (Output.x p) =? N)%nat && (length (Output.y p) =? N)%nat
  && (length (Output.elev p) =? N)%nat
  && (length (Output.time p) =? T)%nat
  && shaped T N (Output.stage p)
  && shaped T N (Output.xmom p) && shaped T N (Output.ymom p)
  && shaped T N (Output.xvel p) && shaped T N (Output.yvel p)
  && forallb (valid_triangle N) (Output.vols p).

(** The state of an output array [out], started as [out0], after [i]
    iterations of a loop over time steps: rows below [i] hold what the row
    expression [rowpure] gives on the rows of [src] and [st], the others
    are untouched. *)
Definition filled (rowpure : list float -> list float -> list float)
    (N : nat) (st src out0 out : ndarray2) (i : nat) : Prop :=
  np.ncols out = N /\ np.nrows out = np.nrows out0 /\
  (forall t rx sr, (t < i)%nat ->
     np.rows src !! t = Some rx -> np.rows st !! t = Some sr ->
     np.rows out !! t = Some (rowpure rx sr)) /\
  (forall t, (i <= t)%nat -> np.rows out !! t = np.rows out0 !! t).

(** Every variable [read_output] asks for is in the store. *)
Definition has_all_variables (fid : sww) : bool :=
  bool_decide (is_Some (var_x fid)) && bool_decide (is_Some (var_y fid))
  && bool_decide (is_Some (var_stage fid))
  && bool_decide (is_Some (var_elevation fid))
  && bool_decide (is_Some (var_xmomentum fid))
  && bool_decide (is_Some (var_ymomentum fid))
  && bool_decide (is_Some (var_time fid))
  && bool_decide (is_Some (var_volumes fid)).

(** [out] carries the variables of the store [fid] unchanged. *)
Definition reads (fid : sww) (out : Output.t) : Prop :=
  var_x fid = Some (Output.x out) /\ var_y fid = Some (Output.y out)
  /\ var_time fid = Some (Output.time out)
  /\ var_volumes fid = Some (Output.vols out)
  /\ var_stage fid = Some (Output.stage out)
  /\ var_elevation fid = Some (Output.elev out)
  /\ var_xmomentum fid = Some (Output.xmom out)
  /\ var_ymomentum fid = Some (Output.ymom out).

(** The velocity fields of [out] are the velocity formula applied to its
    momentum, stage and elevation, point by point. *)
Definition velocities_derived (T N : nat) (out : Output.t) : Prop :=
  shaped T N (Output.xvel out) = true
  /\ shaped T N (Output.yvel out) = true
  /\ shaped T N (Output.vel out) = true
  /\ (forall t i m s e,
        get2 (Output.xmom out) t i = Some m ->
        get2 (Output.stage out) t i = Some s ->
        Output.elev out !! i = Some e ->
        get2 (Output.xvel out) t i
        = Some (velocity_at m s e (Output.minimum_allowed_height out)))
  /\ (forall t i m s e,
        get2 (Output.ymom out) t i = Some m ->
        get2 (Output.stage out) t i = Some s ->
        Output.elev out !! i = Some e ->
        get2 (Output.yvel out) t i
        = Some (velocity_at m s e (Output.minimum_allowed_height out)))
  /\ (forall t i vx vy,
        get2 (Output.xvel out) t i = Some vx ->
        get2 (Output.yvel out) t i = Some vy ->
        get2 (Output.vel out) t i = Some (speed_at vx vy)).

(** [m] is the average of the entries of [a] at the three vertices of the
    triangle [v], the entries being read as numpy reads [a[v0]]. *)
Definition is_mean3 (a : list float) (v : Z * Z * Z) (m : float) : Prop :=
  exists f0 f1 f2,
    np.getitem a (fst (fst v)) = Ok f0 /\ np.getitem a (snd (fst v)) = Ok f1
    /\ np.getitem a (snd v) = Ok f2 /\ m = mean3 f0 f1 f2.

(** The centroid values of [x], [y], [elev] and, at every time step,
    [stage] are the averages over the vertices of each triangle. *)
Definition centroid_averages (p : Output.t) (c : Centroids.t) : Prop :=
  forall j v, Output.vols p !! j = Some v ->
    (exists m, Centroids.x c !! j = Some m /\ is_mean3 (Output.x p) v m)
    /\ (exists m, Centroids.y c !! j = Some m /\ is_mean3 (Output.y p) v m)
    /\ (exists m, Centroids.elev c !! j = Some m
                  /\ is_mean3 (Output.elev p) v m)
    /\ (forall t r, np.rows (Output.stage p) !! t = Some r ->
          exists m, get2 (Centroids.stage c) t j = Some m /\ is_mean3 r v m).

(** The centroid velocities of [c] are the velocity formula applied to the
    centroid momentum, stage and elevation of [c] itself. *)
Definition centroid_velocities_derived (p : Output.t) (c : Centroids.t)
    : Prop :=
  forall t j, (t < length (Output.time p))%nat ->
              (j < length (Output.vols p))%nat ->
    exists mx my s e,
      get2 (Centroids.xmom c) t j = Some mx
      /\ get2 (Centroids.ymom c) t j = Some my
      /\ get2 (Centroids.stage c) t j = Some s
      /\ Centroids.elev c !! j = Some e
      /\ get2 (Centroids.xvel c) t j
         = Some (velocity_at mx s e (Output.minimum_allowed_height p))
      /\ get2 (Centroids.yvel c) t j
         = Some (velocity_at my s e (Output.minimum_allowed_height p)).

(** With averaged velocities, the centroid momenta of [c] are the inverse
    formula applied to the centroid velocity, stage and elevation of [c]. *)
Definition centroid_momenta_derived (p : Output.t) (c : Centroids.t)
    : Prop :=
  forall t j, (t < length (Output.time p))%nat ->
              (j < length (Output.vols p))%nat ->
    exists vx vy s e,
      get2 (Centroids.xvel c) t j = Some vx
      /\ get2 (Centroids.yvel c) t j = Some vy
      /\ get2 (Centroids.stage c) t j = Some s
      /\ Centroids.elev c !! j = Some e
      /\ get2 (Centroids.xmom c) t j
         = Some (momentum_at vx s e (Output.minimum_allowed_height p))
      /\ get2 (Centroids.ymom c) t j
         = Some (momentum_at vy s e (Output.minimum_allowed_height p)).

(** In the result [(idx, coords)] of [near_transect], position [k] of
    [coords] is the coordinate of the point named at position [k] of [idx]:
    its offset from [(x1, y1)] weighted by one pair [(g1x, g1y)]. *)
Definition parallel_selection (px py : list float) (x1 y1 : float)
    (idx : list Z) (coords : list float) : Prop :=
  length coords = length idx
  /\ exists g1x g1y, forall k i, idx !! k = Some i ->
       exists qx qy,
         np.getitem px i = Ok qx /\ np.getitem py i = Ok qy
         /\ coords !! k = Some (g1x * (qx - x1) + g1y * (qy - y1))%float.

(** The along-line coordinate as the specification words it: the dot
    product of [point - endpoint1] with the unit vector from [endpoint1]
    to [endpoint2], both components divided by the same norm. *)
Definition along_line_spec (x1 y1 x2 y2 px py : float) : float :=
  let g1x := x2 - x1 in
  let g1y := y2 - y1 in
  let g1_norm := sqrt (g1x * g1x + g1y * g1y) in
  (g1x / g1_norm) * (px - x1) + (g1y / g1_norm) * (py - y1).
End Vocabulary.

(** Finite values, read on the specification of binary64. *)
Definition finiteSF (v : spec_float) : bool :=
  match v with
  | S754_zero _ | S754_finite _ _ _ => true
  | _ => false
  end.

(** Not negative: a NaN, or a value whose sign bit is clear. *)
Definition plusSF (v : spec_float) : bool :=
  match v with
  | S754_nan => true
  | S754_zero s | S754_infinity s | S754_finite s _ _ => negb s
  end.

(** Not above zero: a zero, or a value whose sign bit is set. *)
Definition nonposSF (v : spec_float) : bool :=
  match v with
  | S754_zero _ => true
  | S754_nan => false
  | S754_infinity s | S754_finite s _ _ => s
  end.

(** Two arrays of one shape. *)
Definition same_shape (M N : ndarray2) : Prop :=
  np.nrows M = np.nrows N /\ np.ncols M = np.ncols N.

(** Appending already read files to [p1], one after another, as the loop
    of [combine_outputs] does after its first iteration. *)
Fixpoint combine_all (p1 : Output.t) (ps : list Output.t)
    : result Output.t :=
  match ps with
  | [] => Ok p1
  | q :: ps' => let* p1' := combine_append p1 q in combine_all p1' ps'
  end.

(** [p] has the points, triangles, elevation and threshold of [p0], and
    its time axis and time series are those of [p0] followed by those of
    each of [ps], in the order of the list. *)
Definition concatenated (p0 : Output.t) (ps : list Output.t)
    (p : Output.t) : Prop :=
  Output.x p = Output.x p0 /\ Output.y p = Output.y p0
  /\ Output.vols p = Output.vols p0 /\ Output.elev p = Output.elev p0
  /\ Output.minimum_allowed_height p = Output.minimum_allowed_height p0
  /\ Output.time p
     = (Output.time p0 ++ concat (map Output.time ps))%list
  /\ (forall series : Output.t -> ndarray2,
        In series [Output.stage; Output.xmom; Output.ymom; Output.xvel;
                   Output.yvel; Output.vel] ->
        np.rows (series p)
        = (np.rows (series p0)
           ++ concat (map (fun q => np.rows (series q)) ps))%list
        /\ np.ncols (series p) = np.ncols (series p0)).

(** The three checks of [combine_outputs] on a file [q] against [p0]. *)
Definition same_mesh (p0 q : Output.t) : Prop :=
  np.all_equal PrimFloat.eqb (Output.x p0) (Output.x q) = Ok true
  /\ np.all_equal PrimFloat.eqb (Output.y p0) (Output.y q) = Ok true
  /\ np.all_equal triple_eqb (Output.vols p0) (Output.vols q) = Ok true.

(** ** Example data *)

Section Examples.
Local Open Scope float_scope.

(** The default [minimum_allowed_height], [1.0e-03]. *)
Definition h_default : float := 0x1.0624dd2f1a9fcp-10.

(** One point, one time step: the bed at [1.0e-06], the water surface at
    [0.0], so that [stage - elev + 1.0e-06] is exactly [0.0]. *)
Definition below_bed_sww : sww :=
  Sww (Some [0]) (Some [0]) (Some (np.Array2 1 [[0]])) (Some [F.eps])
      (Some (np.Array2 1 [[1]])) (Some (np.Array2 1 [[1]]))
      (Some [0]) (Some [(0, 0, 0)%Z]).

(** Two points, one time step: point 0 is wet (depth [1.0]), point 1 is
    dry (depth [0.0]).  The store has three time stamps for its single
    time step and a triangle that names a vertex [99]. *)
Definition pond_sww : sww :=
  Sww (Some [0; 1]) (Some [0; 0]) (Some (np.Array2 2 [[2; 0]]))
      (Some [1; 0])
      (Some (np.Array2 2 [[3; 5]])) (Some (np.Array2 2 [[4; 7]]))
      (Some [0; 1; 2]) (Some [(0, 1, 99)%Z]).

(** [pond_sww] without its variable [stage]. *)
Definition no_stage_sww : sww :=
  Sww (Some [0; 1]) (Some [0; 0]) None (Some [1; 0])
      (Some (np.Array2 2 [[3; 5]])) (Some (np.Array2 2 [[4; 7]]))
      (Some [0; 1; 2]) (Some [(0, 1, 99)%Z]).

(** One triangle with vertices [(0,0)], [(3,0)], [(0,3)], two time
    steps. *)
Definition triangle_sww : sww :=
  Sww (Some [0; 3; 0]) (Some [0; 0; 3])
      (Some (np.Array2 3 [[1; 2; 3]; [0; 0; 0]]))
      (Some [0; 0; 0])
      (Some (np.Array2 3 [[1; 1; 4]; [2; 2; 2]]))
      (Some (np.Array2 3 [[0; 3; 3]; [1; 1; 1]]))
      (Some [0; 1]) (Some [(0, 1, 2)%Z]).

(** The same triangle at two later time steps, with the bed of vertex 0
    at [-1.0] instead of [0.0]. *)
Definition triangle_lowered_sww : sww :=
  Sww (Some [0; 3; 0]) (Some [0; 0; 3])
      (Some (np.Array2 3 [[1; 1; 1]; [2; 2; 2]]))
      (Some [-1; 0; 0])
      (Some (np.Array2 3 [[0; 0; 0]; [1; 0; 0]]))
      (Some (np.Array2 3 [[0; 0; 0]; [0; 1; 0]]))
      (Some [2; 3]) (Some [(0, 1, 2)%Z]).

(** [triangle_sww] with one time step of momentum for its two time steps
    of stage. *)
Definition long_stage_sww : sww :=
  Sww (Some [0; 3; 0]) (Some [0; 0; 3])
      (Some (np.Array2 3 [[1; 2; 3]; [0; 0; 0]]))
      (Some [0; 0; 0])
      (Some (np.Array2 3 [[1; 1; 4]]))
      (Some (np.Array2 3 [[0; 3; 3]]))
      (Some [0; 1]) (Some [(0, 1, 2)%Z]).

(** An object holding the points [(5, 0.5)] and [(5, 5)], and nothing
    else. *)
Definition two_points : Output.t :=
  Output.mk [5; 5] [0x1p-1; 5] [] []
            (np.Array2 2 []) [0; 0] (np.Array2 2 []) (np.Array2 2 [])
            (np.Array2 2 []) (np.Array2 2 []) (np.Array2 2 []) h_default.

Definition example_files (filename : string) : result sww :=
  if String.eqb filename "below_bed.sww" then Ok below_bed_sww
  else if String.eqb filename "pond.sww" then Ok pond_sww
  else if String.eqb filename "no_stage.sww" then Ok no_stage_sww
  else if String.eqb filename "triangle_lowered.sww"
       then Ok triangle_lowered_sww
  else if String.eqb filename "long_stage.sww" then Ok long_stage_sww
  else if String.eqb filename "triangle.sww" then Ok triangle_sww
  else Raise "IOError".
End Examples.


(** The three index arrays [vols0], [vols1], [vols2] that
    [get_centroid_values] builds from [p.vols]. *)
Definition vols_column (k : nat) (vols : list (Z * Z * Z)) : list Z :=
  match k with
  | 0%nat => map (fun v : Z * Z * Z => fst (fst v)) vols
  | 1%nat => map (fun v : Z * Z * Z => snd (fst v)) vols
  | _ => map (fun v : Z * Z * Z => snd v) vols
  end.

(** Every field of the centroid object [c] is indexed by the triangles of
    [p]: the one-dimensional fields have one entry per triangle, the time
    series one column per triangle. *)
Definition triangle_indexed (p : Output.t) (c : Centroids.t) : Prop :=
  let K := length (Output.vols p) in
  length (Centroids.x c) = K /\ length (Centroids.y c) = K
  /\ length (Centroids.elev c) = K
  /\ (forall series : Centroids.t -> ndarray2,
        In series [Centroids.stage; Centroids.xmom; Centroids.ymom;
                   Centroids.xvel; Centroids.yvel; Centroids.vel] ->
        np.ncols (series c) = K).

(** The centroid velocities of [c] are the averages of the vertex
    velocities of [p] over each triangle, at every time step. *)
Definition centroid_velocities_averaged (p : Output.t) (c : Centroids.t)
    : Prop :=
  forall j v, Output.vols p !! j = Some v ->
    (forall t r, np.rows (Output.xvel p) !! t = Some r ->
       exists m, get2 (Centroids.xvel c) t j = Some m /\ is_mean3 r v m)
    /\ (forall t r, np.rows (Output.yvel p) !! t = Some r ->
          exists m, get2 (Centroids.yvel c) t j = Some m /\ is_mean3 r v m).

(** [1./(a**2 + b**2)**0.5], the factor of the distance formula. *)
Definition inverse_norm (a b : float) : result float :=
  let* a2 := py.pow2 a in
  let* b2 := py.pow2 b in
  let* den := py.pow_half (a2 + b2) in
  py.truediv 1 den.


(** A tolerance that no distance can be below: zero, negative or NaN. *)
Definition hopeless (tol : float) : bool :=
  (tol <=? 0)%float || is_nan tol.

(** The first [n] rows of a two-dimensional array. *)
Definition first_rows (n : nat) (M : ndarray2) : ndarray2 :=
  np.Array2 (np.ncols M) (firstn n (np.rows M)).

(** ** Further example data *)

Section MoreExamples.
Local Open Scope float_scope.

(** [pond_sww] with its second point at [x = 2.0]. *)
Definition pond_shifted_sww : sww :=
  Sww (Some [0; 2]) (Some [0; 0]) (Some (np.Array2 2 [[2; 0]]))
      (Some [1; 0])
      (Some (np.Array2 2 [[3; 5]])) (Some (np.Array2 2 [[4; 7]]))
      (Some [3]) (Some [(0, 1, 1)%Z]).

(** One point whose [x] is NaN. *)
Definition nan_point_sww : sww :=
  Sww (Some [nan]) (Some [0]) (Some (np.Array2 1 [[1]])) (Some [0])
      (Some (np.Array2 1 [[1]])) (Some (np.Array2 1 [[1]]))
      (Some [0]) (Some [(0, 0, 0)%Z]).

(** [triangle_sww] with a second triangle that names a vertex [3]. *)
Definition stray_vertex_sww : sww :=
  Sww (Some [0; 3; 0]) (Some [0; 0; 3])
      (Some (np.Array2 3 [[1; 2; 3]; [0; 0; 0]]))
      (Some [0; 0; 0])
      (Some (np.Array2 3 [[1; 1; 4]; [2; 2; 2]]))
      (Some (np.Array2 3 [[0; 3; 3]; [1; 1; 1]]))
      (Some [0; 1]) (Some [(0, 1, 2)%Z; (0, 2, 3)%Z]).

(** [triangle_sww] with one time step of stage for its two time steps of
    momentum. *)
Definition short_stage_sww : sww :=
  Sww (Some [0; 3; 0]) (Some [0; 0; 3])
      (Some (np.Array2 3 [[1; 2; 3]]))
      (Some [0; 0; 0])
      (Some (np.Array2 3 [[1; 1; 4]; [2; 2; 2]]))
      (Some (np.Array2 3 [[0; 3; 3]; [1; 1; 1]]))
      (Some [0; 1]) (Some [(0, 1, 2)%Z]).

(** Three values of [x] for two of [y]. *)
Definition ragged_points : Output.t :=
  Output.mk [5; 5; 5] [0x1p-1; 5] [] []
            (np.Array2 2 []) [0; 0] (np.Array2 2 []) (np.Array2 2 [])
            (np.Array2 2 []) (np.Array2 2 []) (np.Array2 2 []) h_default.

Definition more_files (filename : string) : result sww :=
  if String.eqb filename "pond_shifted.sww" then Ok pond_shifted_sww
  else if String.eqb filename "nan_point.sww" then Ok nan_point_sww
  else if String.eqb filename "stray_vertex.sww" then Ok stray_vertex_sww
  else if String.eqb filename "short_stage.sww" then Ok short_stage_sww
  else example_files filename.
End MoreExamples.

(** * Properties *)

(** ** Facts of binary64 *)

Section FloatFacts.
Local Open Scope float_scope.

Lemma shr_1_xO (p : positive) :
  shr_1 (Build_shr_record (Zpos p~0) false false)
  = Build_shr_record (Zpos p) false false.
Proof. reflexivity. Qed.

Lemma shr_fexp_shifted (m : positive) (e : Z) :
  fexp prec emax (Z.pos (digits2_pos m) + e) = e ->
  shr_fexp prec emax (Zpos (4503599627370496 * m)) (e + -52) loc_Exact
  = (Build_shr_record (Zpos m) false false, e).
Proof.
  intros Hc.
  change (4503599627370496 * m)%positive with
    (m~0~0~0~0~0~0~0~0~0~0~0~0~0~0~0~0~0~0~0~0~0~0~0~0~0~0
      ~0~0~0~0~0~0~0~0~0~0~0~0~0~0~0~0~0~0~0~0~0~0~0~0~0~0)%positive.
  unfold shr_fexp.
  match goal with |- context [fexp prec emax ?a] =>
    replace a with (Z.pos (digits2_pos m) + e)%Z
  end.
  2:{ cbn [Zdigits2 digits2_pos]. rewrite !Pos2Z.inj_succ. lia. }
  rewrite Hc.
  replace (e - (e + -52))%Z with 52%Z by lia.
  unfold shr, shr_record_of_loc.
  cbn [SpecFloat.iter_pos]. rewrite !shr_1_xO.
  f_equal. lia.
Qed.

Lemma shr_fexp_canonical (m : positive) (e : Z) :
  fexp prec emax (Z.pos (digits2_pos m) + e) = e ->
  shr_fexp prec emax (Zpos m) e loc_Exact
  = (Build_shr_record (Zpos m) false false, e).
Proof.
  intros Hc. unfold shr_fexp. cbn [Zdigits2]. rewrite Hc, Z.sub_diag.
  reflexivity.
Qed.

Lemma SF64mul_one_finite (s : bool) (m : positive) (e : Z) :
  bounded prec emax m e = true ->
  SF64mul (S754_finite s m e) (S754_finite false 4503599627370496 (-52))
  = S754_finite s m e.
Proof.
  intros Hb. unfold bounded, canonical_mantissa in Hb.
  apply andb_prop in Hb as [Hc He].
  apply Z.eqb_eq in Hc.
  unfold SF64mul, SFmul. rewrite xorb_false_r.
  rewrite Pos.mul_comm.
  unfold binary_round_aux.
  rewrite (shr_fexp_shifted m e Hc).
  cbn [shr_m loc_of_shr_record round_nearest_even].
  rewrite (shr_fexp_canonical m e Hc).
  cbn [shr_m]. rewrite He. reflexivity.
Qed.

Lemma Prim2SF_eq (a b : float) : Prim2SF a = Prim2SF b -> a = b.
Proof. apply Prim2SF_inj. Qed.
Lemma mul_one (a : float) : a * 1 = a.
Proof.
  apply Prim2SF_eq. rewrite mul_spec.
  change (Prim2SF 1) with (S754_finite false 4503599627370496 (-52)).
  pose proof (Prim2SF_valid a) as Hv.
  destruct (Prim2SF a) as [s|s| |s m e]; try reflexivity.
  - cbn. now rewrite xorb_false_r.
  - cbn. now rewrite xorb_false_r.
  - now apply SF64mul_one_finite.
Qed.

Lemma is_finite_spec (a : float) : is_finite a = finiteSF (Prim2SF a).
Proof.
  unfold is_finite, is_nan, is_infinity.
  rewrite !FloatAxioms.eqb_spec, abs_spec.
  change (Prim2SF infinity) with (S754_infinity false).
  destruct (Prim2SF a) as [s|s| |s m e]; try reflexivity.
  - destruct s; reflexivity.
  - unfold SFeqb, SFcompare. cbn [SFabs].
    rewrite Z.compare_refl, Pos.compare_cont_refl. destruct s; reflexivity.
Qed.

Lemma SF2Prim_zero (a : float) (s : bool) :
  Prim2SF a = S754_zero s -> a = if s then neg_zero else zero.
Proof.
  intros H. rewrite <- (SF2Prim_Prim2SF a), H. destruct s; reflexivity.
Qed.

(** A finite value times [0.0] is a zero. *)
Lemma mul_zero_finite (a : float) :
  is_finite a = true -> a * 0 = 0 \/ a * 0 = neg_zero.
Proof.
  rewrite is_finite_spec. intros Hf.
  assert (exists s, Prim2SF (a * 0) = S754_zero s) as [s Hs].
  { rewrite mul_spec. change (Prim2SF 0) with (S754_zero false).
    destruct (Prim2SF a) as [s|s| |s m e]; try discriminate; cbn; eauto. }
  apply SF2Prim_zero in Hs. destruct s; auto.
Qed.

Lemma sub_diag_finite (a : float) : is_finite a = true -> a - a = 0.
Proof.
  rewrite is_finite_spec. intros Hf.
  apply Prim2SF_eq. rewrite sub_spec. change (Prim2SF 0) with (S754_zero false).
  destruct (Prim2SF a) as [s|s| |s m e]; try discriminate.
  - destruct s; reflexivity.
  - unfold SF64sub, SFsub. rewrite Z.min_id.
    unfold shl_align. rewrite Z.sub_diag. cbn [fst].
    reflexivity.
Qed.

Lemma eqb_refl_finite (a : float) : is_finite a = true -> (a =? a) = true.
Proof.
  unfold is_finite, is_nan. intros H.
  destruct (a =? a); [reflexivity | discriminate].
Qed.
Lemma SFcompare_antisym (a b : spec_float) :
  SFcompare b a = option_map CompOpp (SFcompare a b).
Proof.
  destruct a as [sa|sa| |sa ma ea], b as [sb|sb| |sb mb eb]; cbn;
    try reflexivity;
    try (destruct sa; reflexivity); try (destruct sb; reflexivity);
    try (destruct sa, sb; reflexivity).
  destruct sa, sb; cbn; try reflexivity;
    rewrite (Z.compare_antisym ea eb);
    destruct (ea ?= eb)%Z eqn:E; cbn; try reflexivity;
    rewrite (Pos.compare_cont_antisym ma mb Eq); cbn;
    now rewrite ?CompOpp_involutive.
Qed.

Lemma leb_not_gtb (a b : float) : (a <=? b) = true -> (b <? a) = false.
Proof.
  rewrite leb_spec, ltb_spec. unfold SFleb, SFltb.
  rewrite (SFcompare_antisym (Prim2SF a) (Prim2SF b)).
  destruct (SFcompare (Prim2SF a) (Prim2SF b)) as [[| |]|]; cbn;
    intros; congruence.
Qed.

Lemma speed_at_zero (vx vy : float) :
  (vx = 0 \/ vx = neg_zero) -> (vy = 0 \/ vy = neg_zero) ->
  sqrt (vx * vx + vy * vy) = 0.
Proof. intros [-> | ->] [-> | ->]; reflexivity. Qed.
End FloatFacts.

(** ** The exception monad and loops *)

Lemma bind_inv {A B : Type} (m : result A) (k : A -> result B) (b : B) :
  bind m k = Ok b -> exists a, m = Ok a /\ k a = Ok b.
Proof. destruct m as [a|e]; cbn; [eauto | discriminate]. Qed.

(** A loop that keeps an invariant and whose body never raises under it
    returns, in a state where the invariant holds. *)
Lemma for_range_inv {S : Type} (body : nat -> S -> result S)
    (Inv : nat -> S -> Prop) (n : nat) :
  forall (i : nat) (s : S),
    Inv i s ->
    (forall j s0, i <= j < i + n -> Inv j s0 ->
       exists s1, body j s0 = Ok s1 /\ Inv (Datatypes.S j) s1) ->
    exists s', for_range body i n s = Ok s' /\ Inv (i + n) s'.
Proof.
  induction n as [|n IH]; intros i s Hi Hstep; cbn.
  - exists s. rewrite Nat.add_0_r. auto.
  - destruct (Hstep i s) as (s1 & Hb & H1); [lia | assumption |].
    rewrite Hb. cbn.
    destruct (IH (Datatypes.S i) s1 H1) as (s' & Hs' & HI).
    + intros j s0 Hj. apply Hstep. lia.
    + exists s'. split; [assumption|].
      replace (i + Datatypes.S n) with (Datatypes.S i + n) by lia. exact HI.
Qed.

Lemma mapM_length {A B : Type} (f : A -> result B) (l : list A) (r : list B) :
  mapM f l = Ok r -> length r = length l.
Proof.
  revert r. induction l as [|a l IH]; intros r; cbn.
  - intros [= <-]. reflexivity.
  - destruct (f a) as [b|]; cbn; [|discriminate].
    destruct (mapM f l) as [bs|]; cbn; [|discriminate].
    intros [= <-]. cbn. f_equal. now apply IH.
Qed.

Lemma mapM_lookup {A B : Type} (f : A -> result B) (l : list A) (r : list B)
    (j : nat) (a : A) :
  mapM f l = Ok r -> l !! j = Some a ->
  exists b, f a = Ok b /\ r !! j = Some b.
Proof.
  revert r j. induction l as [|a0 l IH]; intros r j; cbn.
  - intros _ Hj. discriminate.
  - destruct (f a0) as [b0|] eqn:E0; cbn; [|discriminate].
    destruct (mapM f l) as [bs|]; cbn; [|discriminate].
    intros [= <-]. destruct j as [|j]; cbn.
    + intros [= <-]. eauto.
    + intros Hj. now apply IH.
Qed.

(** ** Arrays *)

Lemma lookup_map {A B : Type} (f : A -> B) (l : list A) (i : nat) :
  map f l !! i = option_map f (l !! i).
Proof.
  revert i. induction l as [|a l IH]; intros [|i]; cbn; auto.
Qed.

Lemma broadcast_same {A B C : Type} (f : A -> B -> C)
    (a : list A) (b : list B) :
  length a = length b -> np.broadcast f a b = Ok (zip_with f a b).
Proof.
  intros Hl. unfold np.broadcast, np.compatible, np.bzip.
  rewrite Hl, Nat.eqb_refl. reflexivity.
Qed.

Lemma bzip_same {A B C : Type} (f : A -> B -> C) (a : list A) (b : list B) :
  length a = length b -> np.bzip f a b = zip_with f a b.
Proof. intros Hl. unfold np.bzip. rewrite Hl, Nat.eqb_refl. reflexivity. Qed.

Lemma shaped_elim (T N : nat) (M : ndarray2) :
  shaped T N M = true ->
  np.nrows M = T /\ np.ncols M = N /\
  forall t r, np.rows M !! t = Some r -> length r = N.
Proof.
  unfold shaped. rewrite !andb_true_iff, !Nat.eqb_eq, forallb_forall.
  intros [[HT HN] Hr]. repeat split; try assumption.
  intros t r Ht. apply Nat.eqb_eq, Hr.
  apply list_elem_of_In. eapply list_elem_of_lookup_2; eassumption.
Qed.

Lemma setrow_Ok (M : ndarray2) (i : nat) (v : list float) :
  i < np.nrows M -> length v = np.ncols M ->
  np.setrow M i v = Ok (np.Array2 (np.ncols M) (<[i := v]> (np.rows M))).
Proof.
  intros Hi Hv. unfold np.setrow.
  apply Nat.ltb_lt in Hi. rewrite Hi.
  apply Nat.eqb_eq in Hv. rewrite Hv. reflexivity.
Qed.

Lemma getrow_Ok (M : ndarray2) (i : nat) (r : list float) :
  np.rows M !! i = Some r -> np.getrow M i = Ok r.
Proof. unfold np.getrow. intros ->. reflexivity. Qed.

Section RowFacts.
Local Open Scope float_scope.
Variables (mom stage_i elev : list float) (h : float) (N : nat).
Hypothesis Hmom : length mom = N.
Hypothesis Hstage : length stage_i = N.
Hypothesis Helev : length elev = N.

Lemma velocity_list_length : length (velocity_list mom stage_i elev h) = N.
Proof.
  unfold velocity_list.
  rewrite !length_zip_with, !length_map, !length_zip_with. lia.
Qed.

Lemma momentum_list_length : length (momentum_list mom stage_i elev h) = N.
Proof.
  unfold momentum_list.
  rewrite !length_zip_with, !length_map, !length_zip_with. lia.
Qed.

Lemma velocity_row_Ok :
  velocity_row mom stage_i elev h = Ok (velocity_list mom stage_i elev h).
Proof.
  unfold velocity_row, velocity_list.
  rewrite broadcast_same by lia. cbn [bind].
  rewrite broadcast_same
    by (rewrite length_map, length_zip_with; lia). cbn [bind].
  rewrite broadcast_same by (rewrite length_map; lia). cbn [bind].
  apply broadcast_same.
  rewrite !length_zip_with, !length_map, !length_zip_with. lia.
Qed.

Lemma momentum_row_Ok :
  momentum_row mom stage_i elev h = Ok (momentum_list mom stage_i elev h).
Proof.
  unfold momentum_row, momentum_list.
  rewrite broadcast_same by lia. cbn [bind].
  rewrite broadcast_same
    by (rewrite length_map, length_zip_with; lia). cbn [bind].
  rewrite broadcast_same by (rewrite length_map; lia). cbn [bind].
  apply broadcast_same.
  rewrite !length_zip_with, !length_map, !length_zip_with. lia.
Qed.

Lemma velocity_list_lookup (i : nat) (m s e : float) :
  mom !! i = Some m -> stage_i !! i = Some s -> elev !! i = Some e ->
  velocity_list mom stage_i elev h !! i = Some (velocity_at m s e h).
Proof.
  intros Hm Hs He. unfold velocity_list, velocity_at.
  rewrite !lookup_zip_with, !lookup_map, !lookup_zip_with.
  rewrite Hm, Hs, He. reflexivity.
Qed.

Lemma momentum_list_lookup (i : nat) (m s e : float) :
  mom !! i = Some m -> stage_i !! i = Some s -> elev !! i = Some e ->
  momentum_list mom stage_i elev h !! i = Some (momentum_at m s e h).
Proof.
  intros Hm Hs He. unfold momentum_list, momentum_at.
  rewrite !lookup_zip_with, !lookup_map, !lookup_zip_with.
  rewrite Hm, Hs, He. reflexivity.
Qed.
End RowFacts.

(** ** The loops over time steps *)

Section TimeLoop.
Variable row : list float -> list float -> list float -> float
               -> result (list float).
Variable rowpure : list float -> list float -> list float.
Variables (N T : nat) (elev : list float) (h : float).
Variables xin yin st : ndarray2.

Hypothesis Hrow : forall r s,
  length r = N -> length s = N ->
  row r s elev h = Ok (rowpure r s) /\ length (rowpure r s) = N.
Hypothesis Hxin : shaped T N xin = true.
Hypothesis Hyin : shaped T N yin = true.
Hypothesis Hst : shaped T N st = true.

Lemma filled_step (src out0 out : ndarray2) (i : nat) (rx sr : list float) :
  shaped T N src = true ->
  filled rowpure N st src out0 out i -> i < np.nrows out0 ->
  np.rows src !! i = Some rx -> np.rows st !! i = Some sr ->
  exists out',
    np.setrow out i (rowpure rx sr) = Ok out'
    /\ filled rowpure N st src out0 out' (Datatypes.S i).
Proof.
  intros Hsrc (Hc & Hn & Hlow & Hhigh) Hi Hrx Hsr.
  destruct (shaped_elim _ _ _ Hsrc) as (_ & _ & Hsl).
  destruct (shaped_elim _ _ _ Hst) as (_ & _ & Hstl).
  destruct (Hrow rx sr (Hsl _ _ Hrx) (Hstl _ _ Hsr)) as [_ Hlen].
  rewrite setrow_Ok by lia. eexists; split; [reflexivity|].
  unfold filled, np.nrows in *; cbn [np.ncols np.rows].
  rewrite length_insert. repeat split; try assumption.
  - intros t rx' sr' Ht Hrx' Hsr'.
    destruct (decide (t = i)) as [->|Hne].
    + rewrite list_lookup_insert_eq by lia. congruence.
    + rewrite list_lookup_insert_ne by congruence.
      apply Hlow; [lia | assumption | assumption].
  - intros t Ht. rewrite list_lookup_insert_ne by lia. apply Hhigh. lia.
Qed.

Lemma centroid_body_loop (xout0 yout0 : ndarray2) (n : nat) :
  n <= T -> n <= np.nrows xout0 -> n <= np.nrows yout0 ->
  np.ncols xout0 = N -> np.ncols yout0 = N ->
  exists xout yout,
    for_range (centroid_body row xin yin st elev h) 0 n (xout0, yout0)
    = Ok (xout, yout)
    /\ filled rowpure N st xin xout0 xout n /\ filled rowpure N st yin yout0 yout n.
Proof.
  intros HnT Hnx Hny Hcx Hcy.
  destruct (shaped_elim _ _ _ Hxin) as (Hxr & _ & Hxl).
  destruct (shaped_elim _ _ _ Hyin) as (Hyr & _ & Hyl).
  destruct (shaped_elim _ _ _ Hst) as (Hsr & _ & Hsl).
  destruct (for_range_inv (centroid_body row xin yin st elev h)
              (fun i s => filled rowpure N st xin xout0 (fst s) i
                          /\ filled rowpure N st yin yout0 (snd s) i)
              n 0 (xout0, yout0)) as ([xout yout] & Hfor & HI).
  - cbn [fst snd]. split; (split; [assumption|]); (split; [reflexivity|]);
      (split; [intros; lia | reflexivity]).
  - intros j [X Y] Hj [HX HY]. cbn [fst snd] in *.
    destruct (lookup_lt_is_Some_2 (np.rows xin) j) as [rx Erx];
      [unfold np.nrows in Hxr; lia|].
    destruct (lookup_lt_is_Some_2 (np.rows yin) j) as [ry Ery];
      [unfold np.nrows in Hyr; lia|].
    destruct (lookup_lt_is_Some_2 (np.rows st) j) as [sr Esr];
      [unfold np.nrows in Hsr; lia|].
    destruct (filled_step xin xout0 X j rx sr Hxin HX ltac:(lia) Erx Esr)
      as (X' & HsetX & HX').
    destruct (filled_step yin yout0 Y j ry sr Hyin HY ltac:(lia) Ery Esr)
      as (Y' & HsetY & HY').
    exists (X', Y'). split; [|split; assumption].
    unfold centroid_body.
    rewrite (getrow_Ok _ _ _ Erx), (getrow_Ok _ _ _ Esr),
            (getrow_Ok _ _ _ Ery); cbn [bind].
    rewrite (proj1 (Hrow rx sr (Hxl _ _ Erx) (Hsl _ _ Esr))); cbn [bind].
    rewrite HsetX; cbn [bind].
    rewrite (proj1 (Hrow ry sr (Hyl _ _ Ery) (Hsl _ _ Esr))); cbn [bind].
    rewrite HsetY; cbn [bind]. reflexivity.
  - exists xout, yout. cbn [fst snd] in HI. rewrite Nat.add_0_l in HI.
    destruct HI. auto.
Qed.
End TimeLoop.

Lemma shaped_intro (T N : nat) (M : ndarray2) :
  np.nrows M = T -> np.ncols M = N ->
  (forall t r, np.rows M !! t = Some r -> length r = N) ->
  shaped T N M = true.
Proof.
  intros HT HN Hr. unfold shaped.
  rewrite !andb_true_iff, !Nat.eqb_eq, forallb_forall.
  repeat split; try assumption.
  intros r Hin. apply Nat.eqb_eq.
  apply list_elem_of_In, list_elem_of_lookup_1 in Hin as [t Ht]. eauto.
Qed.

Lemma get2_Some (M : ndarray2) (t i : nat) (v : float) :
  get2 M t i = Some v <->
  exists r, np.rows M !! t = Some r /\ r !! i = Some v.
Proof.
  unfold get2. destruct (np.rows M !! t) as [r|].
  - split; [eauto | intros (r' & [= <-] & ?); assumption].
  - split; [discriminate | intros (r' & ? & _); discriminate].
Qed.

Lemma shaped_get2 (T N : nat) (M : ndarray2) (t i : nat) :
  shaped T N M = true -> t < T -> i < N -> exists v, get2 M t i = Some v.
Proof.
  intros HM Ht Hi. destruct (shaped_elim _ _ _ HM) as (Hr & _ & Hl).
  destruct (lookup_lt_is_Some_2 (np.rows M) t) as [r Er];
    [unfold np.nrows in Hr; lia|].
  destruct (lookup_lt_is_Some_2 r i) as [v Ev];
    [rewrite (Hl _ _ Er); lia|].
  exists v. apply get2_Some. eauto.
Qed.

Lemma map2_shaped (f : float -> float) (T N : nat) (M : ndarray2) :
  shaped T N M = true -> shaped T N (np.map2 f M) = true.
Proof.
  intros HM. destruct (shaped_elim _ _ _ HM) as (Hr & Hc & Hl).
  apply shaped_intro.
  - unfold np.nrows, np.map2 in *; cbn. now rewrite length_map.
  - assumption.
  - intros t r. cbn. rewrite lookup_map.
    destruct (np.rows M !! t) as [r0|] eqn:E; cbn; [|discriminate].
    intros [= <-]. rewrite length_map. eauto.
Qed.

Lemma map2_get2 (f : float -> float) (M : ndarray2) (t i : nat) :
  get2 (np.map2 f M) t i = option_map f (get2 M t i).
Proof.
  unfold get2, np.map2; cbn. rewrite lookup_map.
  destruct (np.rows M !! t) as [r|]; cbn; [apply lookup_map | reflexivity].
Qed.

(** An elementwise operation on two arrays of one shape. *)
Lemma broadcast2_same (f : float -> float -> float) (T N : nat)
    (X Y : ndarray2) :
  shaped T N X = true -> shaped T N Y = true ->
  exists V, np.broadcast2 f X Y = Ok V /\ shaped T N V = true /\
    forall t i, get2 V t i
                = match get2 X t i, get2 Y t i with
                  | Some a, Some b => Some (f a b)
                  | _, _ => None
                  end.
Proof.
  intros HX HY.
  destruct (shaped_elim _ _ _ HX) as (HXr & HXc & HXl).
  destruct (shaped_elim _ _ _ HY) as (HYr & HYc & HYl).
  unfold np.broadcast2, np.compatible. rewrite HXr, HYr, HXc, HYc.
  rewrite !Nat.eqb_refl. cbn [orb andb].
  eexists; split; [reflexivity|].
  unfold np.nrows in HXr, HYr.
  rewrite bzip_same by lia.
  assert (Hb : np.bshape N N = N) by (unfold np.bshape; destruct (N =? 1)%nat; auto).
  assert (Hrow : forall t r, zip_with (np.bzip f) (np.rows X) (np.rows Y) !! t
                             = Some r ->
                 exists rx ry, np.rows X !! t = Some rx
                               /\ np.rows Y !! t = Some ry
                               /\ r = zip_with f rx ry).
  { intros t r. rewrite lookup_zip_with.
    destruct (np.rows X !! t) as [rx|] eqn:Ex; cbn; [|discriminate].
    destruct (np.rows Y !! t) as [ry|] eqn:Ey; cbn; [|discriminate].
    intros [= <-]. exists rx, ry. repeat split.
    apply bzip_same. rewrite (HXl _ _ Ex), (HYl _ _ Ey). reflexivity. }
  split.
  - apply shaped_intro; cbn.
    + unfold np.nrows; cbn. rewrite length_zip_with. lia.
    + assumption.
    + intros t r Hr. destruct (Hrow t r Hr) as (rx & ry & Ex & Ey & ->).
      rewrite length_zip_with, (HXl _ _ Ex), (HYl _ _ Ey). lia.
  - intros t i. unfold get2 at 1. cbn [np.rows].
    destruct (zip_with (np.bzip f) (np.rows X) (np.rows Y) !! t) as [r|] eqn:Er.
    + destruct (Hrow t r Er) as (rx & ry & Ex & Ey & ->).
      unfold get2. rewrite Ex, Ey, lookup_zip_with.
      destruct (rx !! i) as [a|] eqn:Ea; cbn.
      * destruct (ry !! i); reflexivity.
      * reflexivity.
    + rewrite lookup_zip_with in Er. unfold get2.
      destruct (np.rows X !! t) as [rx|] eqn:Ex; cbn in Er; [|reflexivity].
      destruct (np.rows Y !! t) as [ry|] eqn:Ey; cbn in Er; [discriminate|].
      destruct (rx !! i); reflexivity.
Qed.

Lemma speed_Ok (T N : nat) (X Y : ndarray2) :
  shaped T N X = true -> shaped T N Y = true ->
  exists V, speed X Y = Ok V /\ shaped T N V = true /\
    forall t i vx vy,
      get2 X t i = Some vx -> get2 Y t i = Some vy ->
      get2 V t i = Some (speed_at vx vy).
Proof.
  intros HX HY. unfold speed.
  destruct (broadcast2_same PrimFloat.add T N
              (np.map2 F.square X) (np.map2 F.square Y))
    as (S & HS & HSs & HSg); try (apply map2_shaped; assumption).
  rewrite HS; cbn [bind]. eexists; split; [reflexivity|].
  split; [apply map2_shaped; assumption|].
  intros t i vx vy Hx Hy.
  rewrite map2_get2, HSg, !map2_get2, Hx, Hy. reflexivity.
Qed.

Lemma filled_shaped (rowpure : list float -> list float -> list float)
    (T N : nat) (st src out0 out : ndarray2) :
  (forall r s, length r = N -> length s = N -> length (rowpure r s) = N) ->
  shaped T N st = true -> shaped T N src = true -> np.nrows out0 = T ->
  filled rowpure N st src out0 out T -> shaped T N out = true.
Proof.
  intros Hlen Hst Hsrc H0 (Hc & Hn & Hlow & _).
  destruct (shaped_elim _ _ _ Hst) as (Hsr & _ & Hsl).
  destruct (shaped_elim _ _ _ Hsrc) as (Hxr & _ & Hxl).
  apply shaped_intro; [congruence | assumption |].
  intros t r Hr.
  assert (Ht : t < T).
  { apply lookup_lt_Some in Hr. unfold np.nrows in *. lia. }
  destruct (lookup_lt_is_Some_2 (np.rows src) t) as [rx Erx];
    [unfold np.nrows in Hxr; lia|].
  destruct (lookup_lt_is_Some_2 (np.rows st) t) as [sr Esr];
    [unfold np.nrows in Hsr; lia|].
  rewrite (Hlow t rx sr Ht Erx Esr) in Hr. injection Hr as <-.
  apply Hlen; eauto.
Qed.

Lemma filled_get2 (rowpure : list float -> list float -> list float)
    (T N : nat) (st src out0 out : ndarray2) (f : float -> float -> float)
    (t i : nat) (m s : float) :
  (forall rx sr, rx !! i = Some m -> sr !! i = Some s ->
                 rowpure rx sr !! i = Some (f m s)) ->
  shaped T N src = true ->
  filled rowpure N st src out0 out T ->
  get2 src t i = Some m -> get2 st t i = Some s ->
  get2 out t i = Some (f m s).
Proof.
  intros Hpt Hsrc (_ & _ & Hlow & _) Hm Hs.
  apply get2_Some in Hm as (rx & Erx & Em).
  apply get2_Some in Hs as (sr & Esr & Es).
  destruct (shaped_elim _ _ _ Hsrc) as (Hxr & _ & _).
  assert (Ht : t < T).
  { apply lookup_lt_Some in Erx. unfold np.nrows in *. lia. }
  apply get2_Some. exists (rowpure rx sr). split; auto.
Qed.

(** ** [read_output] on a well-shaped store *)

Lemma read_output_shaped (NetCDFFile : string -> result sww)
    (filename : string) (h : float) (fid : sww) (T N : nat) :
  NetCDFFile filename = Ok fid -> sww_shaped T N fid = true ->
  exists out,
    read_output NetCDFFile filename h = Ok out
    /\ reads fid out /\ Output.minimum_allowed_height out = h
    /\ shaped T N (Output.stage out) = true
    /\ shaped T N (Output.xmom out) = true
    /\ shaped T N (Output.ymom out) = true
    /\ length (Output.elev out) = N
    /\ velocities_derived T N out.
Proof.
  intros Hopen Hsh. unfold sww_shaped in Hsh.
  destruct fid as [[x|] [y|] [stage|] [elev|] [xmom|] [ymom|] [time|] [vols|]];
    cbn in Hsh; try discriminate.
  rewrite !andb_true_iff, Nat.eqb_eq in Hsh.
  destruct Hsh as [[[Hst Hxm] Hym] He].
  destruct (shaped_elim _ _ _ Hxm) as (Hxr & Hxc & _).
  destruct (shaped_elim _ _ _ Hym) as (Hyr & Hyc & _).
  assert (Hrow : forall r s, length r = N -> length s = N ->
            velocity_row r s elev h = Ok (velocity_list r s elev h)
            /\ length (velocity_list r s elev h) = N).
  { intros r s Hr Hs. split.
    - apply (velocity_row_Ok r s elev h N); assumption.
    - apply velocity_list_length; assumption. }
  destruct (centroid_body_loop velocity_row
              (fun r s => velocity_list r s elev h) N T elev h
              xmom ymom stage Hrow Hxm Hym Hst
              (np.map2 (fun v => (v * 0)%float) xmom)
              (np.map2 (fun v => (v * 0)%float) ymom) T)
    as (xvel & yvel & Hloop & HX & HY);
    try (unfold np.nrows, np.map2 in *; cbn; rewrite ?length_map; lia);
    try assumption.
  assert (HXs : shaped T N xvel = true).
  { apply (filled_shaped (fun r s => velocity_list r s elev h) T N stage xmom
             (np.map2 (fun v => (v * 0)%float) xmom) xvel);
      try assumption.
    - intros r s Hr Hs. apply velocity_list_length; assumption.
    - unfold np.nrows, np.map2 in *; cbn. now rewrite length_map. }
  assert (HYs : shaped T N yvel = true).
  { apply (filled_shaped (fun r s => velocity_list r s elev h) T N stage ymom
             (np.map2 (fun v => (v * 0)%float) ymom) yvel);
      try assumption.
    - intros r s Hr Hs. apply velocity_list_length; assumption.
    - unfold np.nrows, np.map2 in *; cbn. now rewrite length_map. }
  destruct (speed_Ok T N xvel yvel HXs HYs) as (vel & Hvel & HVs & HVg).
  exists (Output.mk x y time vols stage elev xmom ymom xvel yvel vel h).
  split.
  - unfold read_output. rewrite Hopen. cbn [bind getValue var_x var_y
      var_stage var_elevation var_xmomentum var_ymomentum var_time
      var_volumes].
    change (read_output_body xmom ymom stage elev h)
      with (centroid_body velocity_row xmom ymom stage elev h).
    rewrite Hxr, Hloop. cbn [bind]. rewrite Hvel. reflexivity.
  - cbn. repeat split; try assumption.
    + intros t i m s e Hm Hs Hel.
      eapply (filled_get2 _ T N stage xmom _ xvel
                (fun m s => velocity_at m s e h)); try eassumption.
      intros rx sr Hrx Hsr. now apply velocity_list_lookup.
    + intros t i m s e Hm Hs Hel.
      eapply (filled_get2 _ T N stage ymom _ yvel
                (fun m s => velocity_at m s e h)); try eassumption.
      intros rx sr Hrx Hsr. now apply velocity_list_lookup.
Qed.

(** ** [read_output]: velocities of dry and wet cells *)

Section Velocity.
Local Open Scope float_scope.

Lemma velocity_at_dry (m s e h : float) :
  (s <=? e + h) = true -> is_finite (m / (s - e + F.eps)) = true ->
  is_zero (velocity_at m s e h) = true.
Proof.
  intros Hdry Hfin. unfold velocity_at, F.gtb.
  rewrite (leb_not_gtb _ _ Hdry). cbn [F.of_bool].
  destruct (mul_zero_finite _ Hfin) as [-> | ->]; reflexivity.
Qed.

Lemma is_zero_cases (v : float) : is_zero v = true -> v = 0 \/ v = neg_zero.
Proof.
  unfold is_zero. rewrite FloatAxioms.eqb_spec.
  change (Prim2SF zero) with (S754_zero false).
  destruct (Prim2SF v) as [sv|sv| |sv mv ev] eqn:E; cbn;
    try discriminate; try (destruct sv; discriminate).
  intros _. apply SF2Prim_zero in E. destruct sv; auto.
Qed.

Lemma velocity_at_wet (m s e h : float) :
  F.gtb s (e + h) = true -> velocity_at m s e h = m / (s - e + F.eps).
Proof.
  intros Hwet. unfold velocity_at. rewrite Hwet. cbn [F.of_bool].
  apply mul_one.
Qed.

(** C1, as amended: in a dry cell ([stage[t,i] <= elev[i] + h]) of a
    well-shaped store, whenever the quotients
    [momentum[t,i] / (stage[t,i] - elev[i] + 1.0e-06)] are finite (the
    denominator is not zero and nothing is infinite or NaN), the x-velocity
    and the y-velocity computed by [read_output] at [(t,i)] compare equal to
    zero and the velocity magnitude is [0.0]. *)
Theorem C1_dry_cell_velocity_zero (NetCDFFile : string -> result sww)
    (filename : string) (h : float) (fid : sww) (T N : nat)
    (out : Output.t) (t i : nat) (mx my s e : float) :
  NetCDFFile filename = Ok fid -> sww_shaped T N fid = true ->
  read_output NetCDFFile filename h = Ok out ->
  get2 (Output.xmom out) t i = Some mx ->
  get2 (Output.ymom out) t i = Some my ->
  get2 (Output.stage out) t i = Some s ->
  Output.elev out !! i = Some e ->
  (s <=? e + h) = true ->
  is_finite (mx / (s - e + F.eps)) = true ->
  is_finite (my / (s - e + F.eps)) = true ->
  exists vx vy,
    get2 (Output.xvel out) t i = Some vx /\ (vx =? 0) = true
    /\ get2 (Output.yvel out) t i = Some vy /\ (vy =? 0) = true
    /\ get2 (Output.vel out) t i = Some 0.
Proof.
  intros Hopen Hsh Hread Hmx Hmy Hs He Hdry Hfx Hfy.
  destruct (read_output_shaped NetCDFFile filename h fid T N Hopen Hsh)
    as (out' & Hread' & _ & Hh & _ & _ & _ & _ & _ & _ & _ & Hx & Hy & Hv).
  rewrite Hread in Hread'. injection Hread' as <-.
  rewrite Hh in Hx, Hy.
  pose proof (velocity_at_dry mx s e h Hdry Hfx) as Zx.
  pose proof (velocity_at_dry my s e h Hdry Hfy) as Zy.
  exists (velocity_at mx s e h), (velocity_at my s e h).
  repeat split; eauto.
  rewrite (Hv t i _ _ (Hx _ _ _ _ _ Hmx Hs He) (Hy _ _ _ _ _ Hmy Hs He)).
  f_equal. unfold speed_at. apply speed_at_zero; now apply is_zero_cases.
Qed.

(** C2: in a wet cell ([stage[t,i] > elev[i] + h]) of a well-shaped store,
    each velocity component computed by [read_output] is
    [momentum[t,i] / (stage[t,i] - elev[i] + 1.0e-06)], the [1.0e-06]
    being added there as everywhere, and the velocity magnitude is
    [sqrt(xvel^2 + yvel^2)]. *)
Theorem C2_wet_cell_velocity (NetCDFFile : string -> result sww)
    (filename : string) (h : float) (fid : sww) (T N : nat)
    (out : Output.t) (t i : nat) (mx my s e : float) :
  NetCDFFile filename = Ok fid -> sww_shaped T N fid = true ->
  read_output NetCDFFile filename h = Ok out ->
  get2 (Output.xmom out) t i = Some mx ->
  get2 (Output.ymom out) t i = Some my ->
  get2 (Output.stage out) t i = Some s ->
  Output.elev out !! i = Some e ->
  F.gtb s (e + h) = true ->
  let vx := mx / (s - e + F.eps) in
  let vy := my / (s - e + F.eps) in
  get2 (Output.xvel out) t i = Some vx
  /\ get2 (Output.yvel out) t i = Some vy
  /\ get2 (Output.vel out) t i = Some (sqrt (vx * vx + vy * vy)).
Proof.
  intros Hopen Hsh Hread Hmx Hmy Hs He Hwet vx vy.
  destruct (read_output_shaped NetCDFFile filename h fid T N Hopen Hsh)
    as (out' & Hread' & _ & Hh & _ & _ & _ & _ & _ & _ & _ & Hx & Hy & Hv).
  rewrite Hread in Hread'. injection Hread' as <-.
  rewrite Hh in Hx, Hy.
  pose proof (Hx _ _ _ _ _ Hmx Hs He) as Hvx.
  pose proof (Hy _ _ _ _ _ Hmy Hs He) as Hvy.
  rewrite velocity_at_wet in Hvx, Hvy by assumption.
  repeat split; try assumption.
  apply (Hv t i vx vy Hvx Hvy).
Qed.
End Velocity.

Section VelocityExamples.
Local Open Scope float_scope.

(** C1 at the dry point of [pond.sww]. *)
Lemma C1_dry_cell_velocity_zero_witness :
  exists out,
    read_output example_files "pond.sww" h_default = Ok out
    /\ exists vx vy,
         get2 (Output.xvel out) 0 1 = Some vx /\ (vx =? 0) = true
         /\ get2 (Output.yvel out) 0 1 = Some vy /\ (vy =? 0) = true
         /\ get2 (Output.vel out) 0 1 = Some 0.
Proof.
  eexists. split; [vm_compute; reflexivity|].
  apply (C1_dry_cell_velocity_zero example_files "pond.sww" h_default
           pond_sww 1 2 _ 0 1 5 7 0 0); reflexivity.
Defined.

(** C1 as stated fails below the bed: with [stage = 0.0] and
    [elev = 1.0e-06] the cell is dry, the denominator is [0.0], the
    quotient is infinite and its product with [0.0] is NaN. *)
Lemma C1_counterexample :
  exists out,
    read_output example_files "below_bed.sww" h_default = Ok out
    /\ get2 (Output.stage out) 0 0 = Some 0
    /\ Output.elev out !! 0%nat = Some F.eps
    /\ (0 <=? F.eps + h_default) = true
    /\ get2 (Output.xvel out) 0 0 = Some nan
    /\ get2 (Output.yvel out) 0 0 = Some nan
    /\ get2 (Output.vel out) 0 0 = Some nan
    /\ (nan =? 0) = false.
Proof.
  eexists. split; [vm_compute; reflexivity|].
  repeat split.
Qed.

(** C2 at the wet point of [pond.sww]. *)
Lemma C2_wet_cell_velocity_witness :
  exists out,
    read_output example_files "pond.sww" h_default = Ok out
    /\ get2 (Output.xvel out) 0 0 = Some (3 / (2 - 1 + F.eps))
    /\ get2 (Output.yvel out) 0 0 = Some (4 / (2 - 1 + F.eps))
    /\ get2 (Output.vel out) 0 0
       = Some (sqrt (3 / (2 - 1 + F.eps) * (3 / (2 - 1 + F.eps))
                     + 4 / (2 - 1 + F.eps) * (4 / (2 - 1 + F.eps)))).
Proof.
  eexists. split; [vm_compute; reflexivity|].
  apply (C2_wet_cell_velocity example_files "pond.sww" h_default
           pond_sww 1 2 _ 0 0 3 4 2 1); reflexivity.
Defined.
End VelocityExamples.

(** ** [read_output]: what is checked and what is not *)

Lemma read_output_missing (NetCDFFile : string -> result sww)
    (filename : string) (h : float) (fid : sww) :
  NetCDFFile filename = Ok fid -> has_all_variables fid = false ->
  read_output NetCDFFile filename h = Raise "KeyError".
Proof.
  intros Hopen Hmiss. unfold read_output. rewrite Hopen. cbn [bind].
  destruct fid as [x y stage elev xmom ymom time vols].
  unfold has_all_variables in Hmiss. cbn in Hmiss.
  destruct x; [|reflexivity]. destruct y; [|reflexivity].
  destruct stage; [|reflexivity]. destruct elev; [|reflexivity].
  destruct xmom; [|reflexivity]. destruct ymom; [|reflexivity].
  destruct time; [|reflexivity]. destruct vols; [|reflexivity].
  discriminate.
Qed.

(** C9, as amended: [read_output] has no validation step and no error
    classes of its own.  When a required variable is absent it fails with
    [KeyError]; when the three time series share one shape that the
    elevation fits, it returns an [Output] that carries [time] and [vols]
    as they are in the store, whatever the length of [time] and whatever
    the entries of [vols]. *)
Theorem C9_read_output_unvalidated (NetCDFFile : string -> result sww)
    (filename : string) (h : float) (fid : sww) :
  NetCDFFile filename = Ok fid ->
  (has_all_variables fid = false ->
   read_output NetCDFFile filename h = Raise "KeyError")
  /\ (forall T N, sww_shaped T N fid = true ->
      exists out, read_output NetCDFFile filename h = Ok out
                  /\ reads fid out).
Proof.
  intros Hopen. split.
  - now apply read_output_missing.
  - intros T N Hsh.
    destruct (read_output_shaped NetCDFFile filename h fid T N Hopen Hsh)
      as (out & Hread & Hreads & _).
    eauto.
Qed.

Lemma C9_read_output_unvalidated_witness :
  read_output example_files "no_stage.sww" h_default = Raise "KeyError"
  /\ exists out, read_output example_files "pond.sww" h_default = Ok out
                 /\ reads pond_sww out.
Proof.
  split.
  - apply (proj1 (C9_read_output_unvalidated example_files "no_stage.sww"
                    h_default no_stage_sww eq_refl)). reflexivity.
  - apply (proj2 (C9_read_output_unvalidated example_files "pond.sww"
                    h_default pond_sww eq_refl) 1 2). reflexivity.
Defined.

(** C9 as stated fails: a store with three time stamps for one time step
    and a triangle naming vertex 99 of 2 is read without error; so is a
    store with two time steps of stage for one of momentum; and an absent
    variable raises [KeyError], not [MissingFieldError]. *)
Lemma C9_counterexample :
  (exists out,
     read_output example_files "pond.sww" h_default = Ok out
     /\ length (Output.time out) = 3 /\ np.nrows (Output.stage out) = 1
     /\ length (Output.x out) = 2 /\ Output.vols out = [(0, 1, 99)%Z])
  /\ (exists out,
        read_output example_files "long_stage.sww" h_default = Ok out
        /\ np.nrows (Output.stage out) = 2
        /\ np.nrows (Output.xmom out) = 1)
  /\ read_output example_files "no_stage.sww" h_default = Raise "KeyError"
  /\ read_output example_files "no_stage.sww" h_default
     <> Raise "MissingFieldError".
Proof.
  split; [eexists; split; [vm_compute; reflexivity | repeat split]|].
  split; [eexists; split; [vm_compute; reflexivity | repeat split]|].
  split; [reflexivity | discriminate].
Qed.

(** ** [combine_outputs] *)

(** C6: on a list of one file, [combine_outputs] gives what [get_output]
    gives on that file with the same [minimum_allowed_height]: the same
    [Output], field by field, or the same exception. *)
Theorem C6_combine_single_is_get_output (NetCDFFile : string -> result sww)
    (filename : string) (h : float) :
  combine_outputs NetCDFFile [filename] h = get_output NetCDFFile filename h.
Proof.
  unfold combine_outputs. cbn [combine_loop].
  destruct (get_output NetCDFFile filename h) as [p|e]; cbn; [|reflexivity].
  destruct p; reflexivity.
Qed.

(** [combine_append] never reads the elevation of the file it appends. *)
Lemma combine_append_elev_blind (p1 q : Output.t) (elev' : list float) :
  combine_append p1
    (Output.mk (Output.x q) (Output.y q) (Output.time q) (Output.vols q)
       (Output.stage q) elev' (Output.xmom q) (Output.ymom q)
       (Output.xvel q) (Output.yvel q) (Output.vel q)
       (Output.minimum_allowed_height q))
  = combine_append p1 q.
Proof. reflexivity. Qed.

(** C5, the code at the failing input: two files on the same points and
    triangles whose elevations differ are combined without error, and the
    result carries the elevation of the first over the four time steps. *)
Theorem C5_combine_differing_elevation :
  var_x triangle_sww = var_x triangle_lowered_sww
  /\ var_y triangle_sww = var_y triangle_lowered_sww
  /\ var_volumes triangle_sww = var_volumes triangle_lowered_sww
  /\ var_elevation triangle_sww <> var_elevation triangle_lowered_sww
  /\ exists p,
       combine_outputs example_files
         ["triangle.sww"; "triangle_lowered.sww"] h_default = Ok p
       /\ Some (Output.elev p) = var_elevation triangle_sww
       /\ Output.time p = [0; 1; 2; 3]%float
       /\ np.nrows (Output.stage p) = 4.
Proof.
  repeat split; try discriminate.
  eexists. split; [vm_compute; reflexivity|]. repeat split.
Qed.

(** ** Index arrays *)

Lemma getitem_valid {A : Type} (a : list A) (i : Z) :
  is_Some (np.norm_index (length a) i) -> exists v, np.getitem a i = Ok v.
Proof.
  intros [k Hk]. unfold np.getitem. rewrite Hk.
  assert (Hlt : k < length a).
  { unfold np.norm_index in Hk.
    destruct ((0 <=? i)%Z && (i <? Z.of_nat (length a))%Z) eqn:E1.
    - injection Hk as <-. apply andb_prop in E1 as [H0 H1].
      apply Z.leb_le in H0. apply Z.ltb_lt in H1. lia.
    - destruct ((- Z.of_nat (length a) <=? i)%Z && (i <? 0)%Z) eqn:E2;
        [|discriminate].
      injection Hk as <-. apply andb_prop in E2 as [H0 H1].
      apply Z.leb_le in H0. apply Z.ltb_lt in H1. lia. }
  destruct (lookup_lt_is_Some_2 a k Hlt) as [v Hv]. rewrite Hv. eauto.
Qed.

Lemma take_valid {A : Type} (a : list A) (idx : list Z) :
  Forall (fun i => is_Some (np.norm_index (length a) i)) idx ->
  exists r, np.take a idx = Ok r.
Proof.
  unfold np.take. induction 1 as [|i idx Hi _ [r IH]]; cbn; [eauto|].
  destruct (getitem_valid a i Hi) as [v Hv]. rewrite Hv, IH. cbn. eauto.
Qed.

Lemma take_cols_spec (T N : nat) (M : ndarray2) (idx : list Z) :
  shaped T N M = true ->
  Forall (fun i => is_Some (np.norm_index N i)) idx ->
  exists R, np.take_cols M idx = Ok R /\ shaped T (length idx) R = true /\
    forall t j r v, np.rows M !! t = Some r -> idx !! j = Some v ->
      exists f, np.getitem r v = Ok f /\ get2 R t j = Some f.
Proof.
  intros HM Hidx. destruct (shaped_elim _ _ _ HM) as (Hr & Hc & Hl).
  assert (Hrows : exists rs, mapM (fun r => np.take r idx) (np.rows M) = Ok rs).
  { clear Hr. induction (np.rows M) as [|r rs IH]; cbn; [eauto|].
    destruct (take_valid r idx) as [r' Hr'].
    { rewrite (Hl 0 r eq_refl). assumption. }
    destruct IH as [rs' Hrs'].
    { intros t r0 Ht. apply (Hl (S t) r0 Ht). }
    rewrite Hr', Hrs'. cbn. eauto. }
  destruct Hrows as [rs Hrs].
  unfold np.take_cols. rewrite Hc.
  assert (Hchk : forallb (fun i => bool_decide (is_Some (np.norm_index N i)))
                         idx = true).
  { apply forallb_forall. intros i Hin. apply bool_decide_eq_true.
    rewrite Forall_forall in Hidx. now apply Hidx, list_elem_of_In. }
  rewrite Hchk, Hrs. cbn [bind]. eexists; split; [reflexivity|].
  pose proof (mapM_length _ _ _ Hrs) as Hlen.
  split.
  - apply shaped_intro; cbn; [unfold np.nrows in *; cbn; lia | reflexivity |].
    intros t r' Hr'.
    assert (Ht : t < length (np.rows M)).
    { apply lookup_lt_Some in Hr'. lia. }
    destruct (lookup_lt_is_Some_2 (np.rows M) t Ht) as [r Er].
    destruct (mapM_lookup _ _ _ t r Hrs Er) as (r'' & Htake & Er'').
    rewrite Er'' in Hr'. injection Hr' as <-.
    apply (mapM_length _ _ _ Htake).
  - intros t j r v Er Ev.
    destruct (mapM_lookup _ _ _ t r Hrs Er) as (r' & Htake & Er').
    destruct (mapM_lookup _ _ _ j v Htake Ev) as (f & Hf & Ef).
    exists f. split; [assumption|]. apply get2_Some. eauto.
Qed.

(** ** Centroid averages *)

Section CentroidFacts.
Local Open Scope float_scope.
Variables (N : nat) (vols : list (Z * Z * Z)).
Hypothesis Hvols : forallb (valid_triangle N) vols = true.

Let vols0 := map (fun v : Z * Z * Z => fst (fst v)) vols.
Let vols1 := map (fun v : Z * Z * Z => snd (fst v)) vols.
Let vols2 := map (fun v : Z * Z * Z => snd v) vols.

Lemma vols_valid :
  Forall (fun i => is_Some (np.norm_index N i)) vols0
  /\ Forall (fun i => is_Some (np.norm_index N i)) vols1
  /\ Forall (fun i => is_Some (np.norm_index N i)) vols2.
Proof.
  subst vols0 vols1 vols2. clear -Hvols.
  induction vols as [|[[v0 v1] v2] l IH]; cbn in *.
  - repeat split; constructor.
  - apply andb_prop in Hvols as [Hv Hl].
    rewrite !andb_true_iff, !bool_decide_eq_true in Hv.
    destruct Hv as [[H0 H1] H2].
    destruct (IH Hl) as (I0 & I1 & I2).
    repeat split; constructor; assumption.
Qed.

Lemma vols_lookup (j : nat) (v0 v1 v2 : Z) :
  vols !! j = Some (v0, v1, v2) ->
  vols0 !! j = Some v0 /\ vols1 !! j = Some v1 /\ vols2 !! j = Some v2.
Proof.
  intros Hj. subst vols0 vols1 vols2. rewrite !lookup_map, Hj. auto.
Qed.

Lemma centroid1_spec (a : list float) :
  length a = N ->
  exists r, centroid1 a vols0 vols1 vols2 = Ok r /\ length r = length vols /\
    forall j v0 v1 v2, vols !! j = Some (v0, v1, v2) ->
      exists f0 f1 f2,
        np.getitem a v0 = Ok f0 /\ np.getitem a v1 = Ok f1
        /\ np.getitem a v2 = Ok f2 /\ r !! j = Some (mean3 f0 f1 f2).
Proof.
  intros Ha. destruct vols_valid as (V0 & V1 & V2). rewrite <- Ha in V0, V1, V2.
  destruct (take_valid a vols0 V0) as [a0 H0].
  destruct (take_valid a vols1 V1) as [a1 H1].
  destruct (take_valid a vols2 V2) as [a2 H2].
  pose proof (mapM_length _ _ _ H0) as L0.
  pose proof (mapM_length _ _ _ H1) as L1.
  pose proof (mapM_length _ _ _ H2) as L2.
  assert (Lv : length vols0 = length vols /\ length vols1 = length vols
               /\ length vols2 = length vols).
  { subst vols0 vols1 vols2. rewrite !length_map. auto. }
  destruct Lv as (Lv0 & Lv1 & Lv2).
  unfold centroid1. rewrite H0, H1. cbn [bind].
  rewrite broadcast_same by lia. cbn [bind]. rewrite H2. cbn [bind].
  rewrite broadcast_same by (rewrite length_zip_with; lia). cbn [bind].
  eexists; split; [reflexivity|]. split.
  - rewrite length_map, !length_zip_with. lia.
  - intros j v0 v1 v2 Hj.
    destruct (vols_lookup j v0 v1 v2 Hj) as (E0 & E1 & E2).
    destruct (mapM_lookup _ _ _ j v0 H0 E0) as (f0 & G0 & F0).
    destruct (mapM_lookup _ _ _ j v1 H1 E1) as (f1 & G1 & F1).
    destruct (mapM_lookup _ _ _ j v2 H2 E2) as (f2 & G2 & F2).
    exists f0, f1, f2. repeat split; try assumption.
    rewrite lookup_map, !lookup_zip_with, F0, F1, F2. reflexivity.
Qed.

Lemma centroid2_spec (T : nat) (M : ndarray2) :
  shaped T N M = true ->
  exists C, centroid2 M vols0 vols1 vols2 = Ok C
    /\ shaped T (length vols) C = true /\
    forall t j r v0 v1 v2,
      np.rows M !! t = Some r -> vols !! j = Some (v0, v1, v2) ->
      exists f0 f1 f2,
        np.getitem r v0 = Ok f0 /\ np.getitem r v1 = Ok f1
        /\ np.getitem r v2 = Ok f2 /\ get2 C t j = Some (mean3 f0 f1 f2).
Proof.
  intros HM. destruct vols_valid as (V0 & V1 & V2).
  assert (Lv : length vols0 = length vols /\ length vols1 = length vols
               /\ length vols2 = length vols).
  { subst vols0 vols1 vols2. rewrite !length_map. auto. }
  destruct Lv as (Lv0 & Lv1 & Lv2).
  destruct (take_cols_spec T N M vols0 HM V0) as (m0 & H0 & S0 & G0).
  destruct (take_cols_spec T N M vols1 HM V1) as (m1 & H1 & S1 & G1).
  destruct (take_cols_spec T N M vols2 HM V2) as (m2 & H2 & S2 & G2).
  rewrite Lv0 in S0. rewrite Lv1 in S1. rewrite Lv2 in S2.
  destruct (broadcast2_same PrimFloat.add T (length vols) m0 m1 S0 S1)
    as (s01 & H01 & S01 & G01).
  destruct (broadcast2_same PrimFloat.add T (length vols) s01 m2 S01 S2)
    as (s & Hs & Ss & Gs).
  unfold centroid2. rewrite H0, H1. cbn [bind]. rewrite H01. cbn [bind].
  rewrite H2. cbn [bind]. rewrite Hs. cbn [bind].
  eexists; split; [reflexivity|]. split; [now apply map2_shaped|].
  intros t j r v0 v1 v2 Er Hj.
  destruct (vols_lookup j v0 v1 v2 Hj) as (E0 & E1 & E2).
  destruct (G0 t j r v0 Er E0) as (f0 & I0 & F0).
  destruct (G1 t j r v1 Er E1) as (f1 & I1 & F1).
  destruct (G2 t j r v2 Er E2) as (f2 & I2 & F2).
  exists f0, f1, f2. repeat split; try assumption.
  rewrite map2_get2, Gs, G01, F0, F1, F2. reflexivity.
Qed.
End CentroidFacts.

(** ** [get_centroid_values] on a well-shaped [Output] *)

Lemma output_shaped_elim (T N : nat) (p : Output.t) :
  output_shaped T N p = true ->
  length (Output.x p) = N /\ length (Output.y p) = N
  /\ length (Output.elev p) = N /\ length (Output.time p) = T
  /\ shaped T N (Output.stage p) = true
  /\ shaped T N (Output.xmom p) = true /\ shaped T N (Output.ymom p) = true
  /\ shaped T N (Output.xvel p) = true /\ shaped T N (Output.yvel p) = true
  /\ forallb (valid_triangle N) (Output.vols p) = true.
Proof.
  unfold output_shaped. rewrite !andb_true_iff, !Nat.eqb_eq. tauto.
Qed.

Lemma centroid1_mean (N : nat) (p : Output.t) (a : list float) :
  forallb (valid_triangle N) (Output.vols p) = true -> length a = N ->
  exists r,
    centroid1 a (map (fun v : Z * Z * Z => fst (fst v)) (Output.vols p))
                (map (fun v : Z * Z * Z => snd (fst v)) (Output.vols p))
                (map (fun v : Z * Z * Z => snd v) (Output.vols p)) = Ok r
    /\ length r = length (Output.vols p)
    /\ forall j v, Output.vols p !! j = Some v ->
         exists m, r !! j = Some m /\ is_mean3 a v m.
Proof.
  intros Hv Ha.
  destruct (centroid1_spec N (Output.vols p) Hv a Ha) as (r & Hr & Hl & Hm).
  exists r. repeat split; try assumption.
  intros j [[v0 v1] v2] Hj.
  destruct (Hm j v0 v1 v2 Hj) as (f0 & f1 & f2 & G0 & G1 & G2 & Hrj).
  exists (mean3 f0 f1 f2). split; [assumption|].
  exists f0, f1, f2. auto.
Qed.

Lemma centroid2_mean (T N : nat) (p : Output.t) (M : ndarray2) :
  forallb (valid_triangle N) (Output.vols p) = true ->
  shaped T N M = true ->
  exists C,
    centroid2 M (map (fun v : Z * Z * Z => fst (fst v)) (Output.vols p))
                (map (fun v : Z * Z * Z => snd (fst v)) (Output.vols p))
                (map (fun v : Z * Z * Z => snd v) (Output.vols p)) = Ok C
    /\ shaped T (length (Output.vols p)) C = true
    /\ forall t j r v, np.rows M !! t = Some r -> Output.vols p !! j = Some v ->
         exists m, get2 C t j = Some m /\ is_mean3 r v m.
Proof.
  intros Hv HM.
  destruct (centroid2_spec N (Output.vols p) Hv T M HM) as (C & HC & HS & Hm).
  exists C. repeat split; try assumption.
  intros t j r [[v0 v1] v2] Er Hj.
  destruct (Hm t j r v0 v1 v2 Er Hj) as (f0 & f1 & f2 & G0 & G1 & G2 & Hrj).
  exists (mean3 f0 f1 f2). split; [assumption|].
  exists f0, f1, f2. auto.
Qed.

Lemma mul0_shaped (T N : nat) (M : ndarray2) :
  shaped T N M = true ->
  np.nrows (np.map2 (fun v => (v * 0)%float) M) = T
  /\ np.ncols (np.map2 (fun v => (v * 0)%float) M) = N.
Proof.
  intros HM. apply (map2_shaped (fun v => (v * 0)%float)) in HM.
  destruct (shaped_elim _ _ _ HM) as (? & ? & _). auto.
Qed.

Lemma get_centroid_values_spec (T N : nat) (p : Output.t) (ve : bool) :
  output_shaped T N p = true ->
  exists c,
    get_centroid_values p ve = Ok c
    /\ Centroids.time c = Output.time p
    /\ centroid_averages p c
    /\ (ve = false -> centroid_velocities_derived p c)
    /\ (ve = true -> centroid_momenta_derived p c).
Proof.
  intros Hp.
  destruct (output_shaped_elim T N p Hp)
    as (Lx & Ly & Le & Lt & Sst & Sxm & Sym & Sxv & Syv & Hv).
  set (K := length (Output.vols p)).
  set (h := Output.minimum_allowed_height p).
  destruct (centroid1_mean N p (Output.x p) Hv Lx) as (xc & Hxc & Lxc & Mxc).
  destruct (centroid1_mean N p (Output.y p) Hv Ly) as (yc & Hyc & Lyc & Myc).
  destruct (centroid2_mean T N p (Output.stage p) Hv Sst)
    as (sc & Hsc & Ssc & Msc).
  destruct (centroid1_mean N p (Output.elev p) Hv Le) as (ec & Hec & Lec & Mec).
  destruct (mul0_shaped T K sc Ssc) as [Z0r Z0c].
  unfold get_centroid_values. rewrite Hxc, Hyc. cbn [bind].
  rewrite Hsc. cbn [bind]. rewrite Hec. cbn [bind].
  destruct ve.
  - destruct (centroid2_mean T N p (Output.xvel p) Hv Sxv)
      as (xv & Hxv & Sxvc & _).
    destruct (centroid2_mean T N p (Output.yvel p) Hv Syv)
      as (yv & Hyv & Syvc & _).
    rewrite Hxv, Hyv. cbn [bind].
    assert (Hrow : forall r s, length r = K -> length s = K ->
              momentum_row r s ec h = Ok (momentum_list r s ec h)
              /\ length (momentum_list r s ec h) = K).
    { intros r s Hr Hs. split.
      - apply (momentum_row_Ok r s ec h K); assumption.
      - apply momentum_list_length; assumption. }
    destruct (centroid_body_loop momentum_row
                (fun r s => momentum_list r s ec h) K T ec h xv yv sc
                Hrow Sxvc Syvc Ssc
                (np.map2 (fun v => (v * 0)%float) sc)
                (np.map2 (fun v => (v * 0)%float) sc) T)
      as (xm & ym & Hloop & FX & FY); try assumption; try lia.
    fold h. rewrite Lt, Hloop. cbn [bind].
    destruct (speed_Ok T K xv yv Sxvc Syvc) as (vc & Hvc & _ & _).
    rewrite Hvc. cbn [bind]. eexists. split; [reflexivity|].
    split; [reflexivity|]. split; [|split; [discriminate|]].
    + intros j v Hj. cbn. repeat split; eauto.
    + intros _ t j Ht Hj. cbn. rewrite Lt in Ht. fold K in Hj.
      destruct (shaped_get2 T K xv t j Sxvc Ht Hj) as [vx Evx].
      destruct (shaped_get2 T K yv t j Syvc Ht Hj) as [vy Evy].
      destruct (shaped_get2 T K sc t j Ssc Ht Hj) as [s Es].
      destruct (lookup_lt_is_Some_2 ec j) as [e Ee]; [lia|].
      exists vx, vy, s, e. repeat split; try assumption.
      * apply (filled_get2 (fun r s => momentum_list r s ec h) T K sc xv
                 (np.map2 (fun v => (v * 0)%float) sc) xm
                 (fun m s => momentum_at m s e h)); try assumption.
        intros rx sr Hrx Hsr. now apply momentum_list_lookup.
      * apply (filled_get2 (fun r s => momentum_list r s ec h) T K sc yv
                 (np.map2 (fun v => (v * 0)%float) sc) ym
                 (fun m s => momentum_at m s e h)); try assumption.
        intros rx sr Hrx Hsr. now apply momentum_list_lookup.
  - destruct (centroid2_mean T N p (Output.xmom p) Hv Sxm)
      as (xm & Hxm & Sxmc & _).
    destruct (centroid2_mean T N p (Output.ymom p) Hv Sym)
      as (ym & Hym & Symc & _).
    rewrite Hxm, Hym. cbn [bind].
    assert (Hrow : forall r s, length r = K -> length s = K ->
              velocity_row r s ec h = Ok (velocity_list r s ec h)
              /\ length (velocity_list r s ec h) = K).
    { intros r s Hr Hs. split.
      - apply (velocity_row_Ok r s ec h K); assumption.
      - apply velocity_list_length; assumption. }
    destruct (centroid_body_loop velocity_row
                (fun r s => velocity_list r s ec h) K T ec h xm ym sc
                Hrow Sxmc Symc Ssc
                (np.map2 (fun v => (v * 0)%float) sc)
                (np.map2 (fun v => (v * 0)%float) sc) T)
      as (xv & yv & Hloop & FX & FY); try assumption; try lia.
    fold h. rewrite Lt, Hloop. cbn [bind].
    assert (Sxv' : shaped T K xv = true).
    { apply (filled_shaped (fun r s => velocity_list r s ec h) T K sc xm
               (np.map2 (fun v => (v * 0)%float) sc) xv); try assumption.
      intros r s Hr Hs. apply velocity_list_length; assumption. }
    assert (Syv' : shaped T K yv = true).
    { apply (filled_shaped (fun r s => velocity_list r s ec h) T K sc ym
               (np.map2 (fun v => (v * 0)%float) sc) yv); try assumption.
      intros r s Hr Hs. apply velocity_list_length; assumption. }
    destruct (speed_Ok T K xv yv Sxv' Syv') as (vc & Hvc & _ & _).
    rewrite Hvc. cbn [bind]. eexists. split; [reflexivity|].
    split; [reflexivity|]. split; [|split; [|discriminate]].
    + intros j v Hj. cbn. repeat split; eauto.
    + intros _ t j Ht Hj. cbn. rewrite Lt in Ht. fold K in Hj.
      destruct (shaped_get2 T K xm t j Sxmc Ht Hj) as [mx Emx].
      destruct (shaped_get2 T K ym t j Symc Ht Hj) as [my Emy].
      destruct (shaped_get2 T K sc t j Ssc Ht Hj) as [s Es].
      destruct (lookup_lt_is_Some_2 ec j) as [e Ee]; [lia|].
      exists mx, my, s, e. repeat split; try assumption.
      * apply (filled_get2 (fun r s => velocity_list r s ec h) T K sc xm
                 (np.map2 (fun v => (v * 0)%float) sc) xv
                 (fun m s => velocity_at m s e h)); try assumption.
        intros rx sr Hrx Hsr. now apply velocity_list_lookup.
      * apply (filled_get2 (fun r s => velocity_list r s ec h) T K sc ym
                 (np.map2 (fun v => (v * 0)%float) sc) yv
                 (fun m s => velocity_at m s e h)); try assumption.
        intros rx sr Hrx Hsr. now apply velocity_list_lookup.
Qed.

(** C7: on a well-shaped [Output], [get_centroids] with
    [velocity_extrapolation = False] returns, and at every time step and
    triangle its x- and y-velocity are the velocity formula applied to its
    own centroid momentum, centroid stage and centroid elevation with the
    [minimum_allowed_height] of the [Output]. *)
Theorem C7_centroid_velocity_from_centroid_momentum (T N : nat)
    (p : Output.t) :
  output_shaped T N p = true ->
  exists c, get_centroids p false = Ok c /\ centroid_velocities_derived p c.
Proof.
  intros Hp.
  destruct (get_centroid_values_spec T N p false Hp)
    as (c & Hc & _ & _ & Hv & _).
  exists c. split; [exact Hc | now apply Hv].
Qed.

Lemma C7_centroid_velocity_from_centroid_momentum_witness :
  exists p,
    read_output example_files "triangle.sww" h_default = Ok p
    /\ exists c, get_centroids p false = Ok c
                 /\ centroid_velocities_derived p c.
Proof.
  eexists. split; [vm_compute; reflexivity|].
  apply (C7_centroid_velocity_from_centroid_momentum 2 3). reflexivity.
Defined.

(** C8: on a well-shaped [Output] and for either value of
    [velocity_extrapolation], [get_centroid_values] returns, and for every
    triangle [(v0, v1, v2)] its [x], [y], [elev] and, at every time step,
    [stage] are [(F[v0] + F[v1] + F[v2]) / 3.0] for the vertex field [F];
    for the vertices [(0,0)], [(3,0)], [(0,3)] this is [(1,1)]. *)
Theorem C8_centroid_is_vertex_average (T N : nat) (p : Output.t)
    (velocity_extrapolation : bool) :
  output_shaped T N p = true ->
  (exists c, get_centroid_values p velocity_extrapolation = Ok c
             /\ centroid_averages p c)
  /\ mean3 0 3 0 = 1%float /\ mean3 0 0 3 = 1%float.
Proof.
  intros Hp. split; [|split; reflexivity].
  destruct (get_centroid_values_spec T N p velocity_extrapolation Hp)
    as (c & Hc & _ & Ha & _ & _).
  eauto.
Qed.

Lemma C8_centroid_is_vertex_average_witness :
  exists p,
    read_output example_files "triangle.sww" h_default = Ok p
    /\ (exists c, get_centroid_values p true = Ok c /\ centroid_averages p c)
    /\ mean3 0 3 0 = 1%float /\ mean3 0 0 3 = 1%float.
Proof.
  eexists. split; [vm_compute; reflexivity|].
  apply (C8_centroid_is_vertex_average 2 3). reflexivity.
Defined.

(** The triangle of [triangle.sww], with either flag. *)
Example triangle_centroid (velocity_extrapolation : bool) :
  exists p c,
    read_output example_files "triangle.sww" h_default = Ok p
    /\ get_centroid_values p velocity_extrapolation = Ok c
    /\ Centroids.x c = [1%float] /\ Centroids.y c = [1%float]
    /\ Centroids.stage c = np.Array2 1 [[2%float]; [0%float]].
Proof.
  destruct velocity_extrapolation; do 2 eexists;
    (split; [vm_compute; reflexivity|]);
    (split; [vm_compute; reflexivity|]); repeat split.
Qed.

(** ** [near_transect] *)

Section TransectFacts.
Local Open Scope float_scope.
Context {P : Type} `{HasPoints P}.

Lemma broadcast_inv {A B C : Type} (f : A -> B -> C)
    (a : list A) (b : list B) (r : list C) :
  length a = length b -> np.broadcast f a b = Ok r -> r = zip_with f a b.
Proof.
  intros Hl. rewrite broadcast_same by assumption. now intros [= <-].
Qed.

(** C10: whenever [near_transect] returns, its two results are parallel:
    as many coordinates as selected indices, the coordinate at each
    position being that of the point at the same position; when nothing is
    selected both are empty. *)
Theorem C10_near_transect_parallel (p : P) (point1 point2 : float * float)
    (tol : float) (idx : list Z) (coords : list float) :
  near_transect p point1 point2 tol = Ok (idx, coords) ->
  parallel_selection (points_x p) (points_y p) (fst point1) (snd point1)
                     idx coords
  /\ (idx = [] -> coords = []).
Proof.
  unfold near_transect. intros Hn.
  apply bind_inv in Hn as ([[a b] c] & Habc & Hn). cbn beta zeta in Hn.
  apply bind_inv in Hn as (a2 & _ & Hn).
  apply bind_inv in Hn as (b2 & _ & Hn).
  apply bind_inv in Hn as (den & _ & Hn).
  apply bind_inv in Hn as (inv_denom & _ & Hn).
  apply bind_inv in Hn as (s & _ & Hn). cbn beta zeta in Hn.
  apply bind_inv in Hn as (gx2 & _ & Hn).
  apply bind_inv in Hn as (gy2 & _ & Hn).
  apply bind_inv in Hn as (g1_norm & _ & Hn).
  apply bind_inv in Hn as (g1x & _ & Hn).
  apply bind_inv in Hn as (g1y & _ & Hn).
  apply bind_inv in Hn as (sel_x & Hx & Hn). cbn beta zeta in Hn.
  apply bind_inv in Hn as (sel_y & Hy & Hn). cbn beta zeta in Hn.
  apply bind_inv in Hn as (local_coord & Hl & Hn).
  injection Hn as Hidx <-. rewrite Hidx in Hx, Hy. clear Hidx.
  pose proof (mapM_length _ _ _ Hx) as Lx.
  pose proof (mapM_length _ _ _ Hy) as Ly.
  apply broadcast_inv in Hl; [|rewrite !length_map; lia]. subst local_coord.
  assert (Hlen : length
            (zip_with PrimFloat.add
               (map (fun v => g1x * v) (map (fun v => v - point1.1) sel_x))
               (map (fun v => g1y * v) (map (fun v => v - point1.2) sel_y)))
          = length idx).
  { rewrite length_zip_with, !length_map. lia. }
  split; [split|].
  - exact Hlen.
  - exists g1x, g1y. intros k i Hk.
    destruct (mapM_lookup _ _ _ k i Hx Hk) as (qx & Gx & Ex).
    destruct (mapM_lookup _ _ _ k i Hy Hk) as (qy & Gy & Ey).
    exists qx, qy. repeat split; try assumption.
    rewrite lookup_zip_with, !lookup_map, Ex, Ey. reflexivity.
  - intros ->. apply length_zero_iff_nil. exact Hlen.
Qed.
End TransectFacts.

Section Degenerate.
Local Open Scope float_scope.
Context {P : Type} `{HasPoints P}.

Lemma line_equation_vertical (x1 y1 y2 : float) :
  is_finite x1 = true -> line_equation x1 y1 x1 y2 = Ok (1, 0, - x1).
Proof.
  intros Hf. unfold line_equation. now rewrite (eqb_refl_finite x1 Hf).
Qed.

(** C3, as amended: for coincident finite endpoints and point arrays [x],
    [y] of one length (or of lengths that broadcast), [near_transect] fails
    with [ZeroDivisionError], raised by the division by the zero norm; it
    returns nothing. *)
Theorem C3_coincident_endpoints_raise (p : P) (x1 y1 tol : float) :
  is_finite x1 = true -> is_finite y1 = true ->
  np.compatible (length (points_x p)) (length (points_y p)) = true ->
  near_transect p (x1, y1) (x1, y1) tol = Raise "ZeroDivisionError".
Proof.
  intros Hx Hy Hc. unfold near_transect. cbn [fst snd].
  rewrite (line_equation_vertical x1 y1 y1 Hx). cbn [bind].
  change (py.pow2 1) with (Ok (A := float) 1).
  change (py.pow2 0) with (Ok (A := float) 0). cbn [bind].
  change (py.pow_half (1 + 0)) with (Ok (A := float) 1). cbn [bind].
  change (py.truediv 1 1) with (Ok (A := float) 1). cbn [bind].
  unfold np.broadcast at 1. rewrite !length_map, Hc. cbn [bind].
  rewrite (sub_diag_finite x1 Hx), (sub_diag_finite y1 Hy).
  change (py.pow2 0) with (Ok (A := float) 0). cbn [bind].
  change (py.pow_half (0 + 0)) with (Ok (A := float) 0). cbn [bind].
  reflexivity.
Qed.

End Degenerate.

Section TransectExamples.
Local Open Scope float_scope.

Lemma C3_coincident_endpoints_raise_witness :
  near_transect two_points (0, 0) (0, 0) 1 = Raise "ZeroDivisionError".
Proof.
  apply (C3_coincident_endpoints_raise two_points 0 0 1); reflexivity.
Defined.

(** C3 as stated fails: the exception raised for coincident endpoints is
    [ZeroDivisionError], not [DegenerateTransectError]; and for coincident
    endpoints at infinity nothing is raised at all. *)
Lemma C3_counterexample :
  near_transect two_points (0, 0) (0, 0) 1 = Raise "ZeroDivisionError"
  /\ near_transect two_points (0, 0) (0, 0) 1
     <> Raise "DegenerateTransectError"
  /\ near_transect two_points (infinity, 0) (infinity, 0) 1 = Ok ([], []).
Proof.
  split; [reflexivity|]. split; [discriminate | reflexivity].
Qed.

(** C4, the code at the failing input: on the line from [(0,0)] to
    [(10,0)] with [tol = 1] and the points [(5, 0.5)] and [(5, 5)], only
    point 0 is selected and its coordinate is [5.05]
    ([1.0 * 5 + 0.1 * 0.5], the y-component of the direction being
    [g1x / g1_norm = 0.1]), where the unit vector [(1, 0)] gives [5.0]. *)
Theorem C4_along_line_coordinate_code :
  near_transect two_points (0, 0) (10, 0) 1
  = Ok ([0%Z], [0x1.4333333333333p+2])
  /\ along_line_spec 0 0 10 0 5 0x1p-1 = 5
  /\ (0x1.4333333333333p+2 =? 5) = false.
Proof. repeat split. Qed.

Lemma C10_near_transect_parallel_witness :
  parallel_selection (points_x two_points) (points_y two_points) 0 0
                     [0%Z] [0x1.4333333333333p+2]
  /\ ([0%Z] = [] -> [0x1.4333333333333p+2] = []).
Proof.
  apply (C10_near_transect_parallel two_points (0, 0) (10, 0) 1).
  reflexivity.
Defined.

(** With a tolerance that no point meets, both results are empty. *)
Example near_transect_none :
  near_transect two_points (0, 0) (10, 0) 0x1p-2 = Ok ([], []).
Proof. reflexivity. Qed.
End TransectExamples.

(** * Further properties *)

(** ** Signs of binary64 results *)

Section SignFacts.
Local Open Scope float_scope.

Lemma binary_round_aux_sign (sx : bool) (mx ex : Z) (lx : location) :
  match binary_round_aux prec emax sx mx ex lx with
  | S754_nan => True
  | S754_zero s | S754_infinity s | S754_finite s _ _ => s = sx
  end.
Proof.
  unfold binary_round_aux.
  destruct (shr_fexp prec emax mx ex lx) as [mrs' e'].
  destruct (shr_fexp prec emax _ e' loc_Exact) as [mrs'' e''].
  destruct (shr_m mrs'') as [|m|m]; auto.
  destruct (e'' <=? emax - prec)%Z; reflexivity.
Qed.

Lemma binary_round_aux_plus (mx ex : Z) (lx : location) :
  plusSF (binary_round_aux prec emax false mx ex lx) = true.
Proof.
  pose proof (binary_round_aux_sign false mx ex lx) as Hs.
  destruct (binary_round_aux prec emax false mx ex lx); cbn; subst; auto.
Qed.

Lemma SFmul_plus (a b : spec_float) :
  plusSF a = true -> plusSF b = true -> plusSF (SF64mul a b) = true.
Proof.
  destruct a as [sa|sa| |sa ma ea], b as [sb|sb| |sb mb eb]; cbn;
    try reflexivity; try (destruct sa, sb; cbn; congruence).
  destruct sa, sb; cbn; try discriminate. intros _ _.
  apply binary_round_aux_plus.
Qed.

Lemma SFdiv_plus (a b : spec_float) :
  plusSF a = true -> plusSF b = true -> plusSF (SF64div a b) = true.
Proof.
  destruct a as [sa|sa| |sa ma ea], b as [sb|sb| |sb mb eb]; cbn;
    try reflexivity; try (destruct sa, sb; cbn; congruence).
  destruct sa, sb; cbn; try discriminate. intros _ _.
  unfold SF64div, SFdiv.
  destruct (SFdiv_core_binary prec emax (Z.pos ma) ea (Z.pos mb) eb)
    as [[mz ez] lz].
  apply binary_round_aux_plus.
Qed.

Lemma SFsqrt_not_negative (a : spec_float) :
  SFltb (SF64sqrt a) (S754_zero false) = false.
Proof.
  destruct a as [sa|sa| |sa ma ea]; cbn; try reflexivity.
  - destruct sa; reflexivity.
  - destruct sa; [reflexivity|].
    unfold SF64sqrt, SFsqrt.
    destruct (SFsqrt_core_binary prec emax (Z.pos ma) ea) as [[mz ez] lz].
    pose proof (binary_round_aux_sign false mz ez lz) as Hs.
    destruct (binary_round_aux prec emax false mz ez lz); cbn; subst;
      reflexivity.
Qed.

Lemma sqrt_not_negative (a : float) : (sqrt a <? 0) = false.
Proof.
  rewrite ltb_spec, sqrt_spec. apply SFsqrt_not_negative.
Qed.

Lemma plus_not_below (a b : spec_float) :
  plusSF a = true -> nonposSF b = true -> SFltb a b = false.
Proof.
  destruct a as [sa|sa| |sa ma ea], b as [sb|sb| |sb mb eb]; cbn;
    try reflexivity; try discriminate;
    intros Ha Hb; try (destruct sa; try discriminate);
    try (destruct sb; try discriminate); reflexivity.
Qed.

Lemma leb_zero_nonpos (t : float) :
  (t <=? 0) = true -> nonposSF (Prim2SF t) = true.
Proof.
  rewrite leb_spec. change (Prim2SF 0) with (S754_zero false).
  destruct (Prim2SF t) as [s|s| |s m e]; cbn; try reflexivity;
    try discriminate; destruct s; cbn; auto; discriminate.
Qed.
End SignFacts.

(** ** What [read_output] returns, whenever it returns *)

Lemma for_range_preserves {S : Type} (body : nat -> S -> result S)
    (Q : S -> Prop) :
  (forall j s s', body j s = Ok s' -> Q s -> Q s') ->
  forall n i s s', for_range body i n s = Ok s' -> Q s -> Q s'.
Proof.
  intros Hbody. induction n as [|n IH]; intros i s s'; cbn.
  - intros [= <-]. auto.
  - intros Hfor Hs. apply bind_inv in Hfor as (s1 & H1 & Hfor).
    eapply IH; [exact Hfor|]. eapply Hbody; eassumption.
Qed.

Lemma setrow_shape (M M' : ndarray2) (i : nat) (v : list float) :
  np.setrow M i v = Ok M' -> same_shape M' M.
Proof.
  unfold np.setrow, same_shape, np.nrows.
  destruct (i <? length (np.rows M))%nat; [|discriminate].
  destruct (length v =? np.ncols M)%nat.
  - intros [= <-]. cbn. now rewrite length_insert.
  - destruct v as [|v0 [|v1 v]]; try discriminate.
    intros [= <-]. cbn. now rewrite length_insert.
Qed.

Lemma centroid_body_shape
    (row : list float -> list float -> list float -> float
           -> result (list float))
    (xin yin st : ndarray2) (elev : list float) (h : float) (i : nat)
    (s s' : ndarray2 * ndarray2) :
  centroid_body row xin yin st elev h i s = Ok s' ->
  same_shape (fst s') (fst s) /\ same_shape (snd s') (snd s).
Proof.
  destruct s as [X Y]. unfold centroid_body. intros Hb.
  apply bind_inv in Hb as (rx & _ & Hb).
  apply bind_inv in Hb as (sx & _ & Hb).
  apply bind_inv in Hb as (vx & _ & Hb).
  apply bind_inv in Hb as (X' & HX & Hb).
  apply bind_inv in Hb as (ry & _ & Hb).
  apply bind_inv in Hb as (sy & _ & Hb).
  apply bind_inv in Hb as (vy & _ & Hb).
  apply bind_inv in Hb as (Y' & HY & Hb).
  injection Hb as <-. cbn.
  split; eapply setrow_shape; eassumption.
Qed.

Lemma time_loop_shape
    (row : list float -> list float -> list float -> float
           -> result (list float))
    (xin yin st : ndarray2) (elev : list float) (h : float) (n : nat)
    (X Y X' Y' : ndarray2) :
  for_range (centroid_body row xin yin st elev h) 0 n (X, Y) = Ok (X', Y') ->
  same_shape X' X /\ same_shape Y' Y.
Proof.
  intros Hfor.
  assert (Hstep : forall j s s',
            centroid_body row xin yin st elev h j s = Ok s' ->
            same_shape (fst s) X /\ same_shape (snd s) Y ->
            same_shape (fst s') X /\ same_shape (snd s') Y).
  { intros j s s' Hb [[Hx1 Hx2] [Hy1 Hy2]].
    destruct (centroid_body_shape _ _ _ _ _ _ _ _ _ Hb) as [[A1 A2] [B1 B2]].
    unfold same_shape. repeat split; congruence. }
  apply (for_range_preserves _ _ Hstep n 0 (X, Y) (X', Y') Hfor).
  cbn. unfold same_shape. auto.
Qed.

Lemma read_output_inv (NetCDFFile : string -> result sww)
    (filename : string) (h : float) (out : Output.t) :
  read_output NetCDFFile filename h = Ok out ->
  exists fid,
    NetCDFFile filename = Ok fid /\ reads fid out
    /\ Output.minimum_allowed_height out = h
    /\ same_shape (Output.xvel out) (Output.xmom out)
    /\ same_shape (Output.yvel out) (Output.ymom out)
    /\ speed (Output.xvel out) (Output.yvel out) = Ok (Output.vel out).
Proof.
  unfold read_output. intros Hr.
  apply bind_inv in Hr as (fid & Hopen & Hr).
  apply bind_inv in Hr as (x & Hx & Hr).
  apply bind_inv in Hr as (y & Hy & Hr).
  apply bind_inv in Hr as (stage & Hst & Hr).
  apply bind_inv in Hr as (elev & He & Hr).
  apply bind_inv in Hr as (xmom & Hxm & Hr).
  apply bind_inv in Hr as (ymom & Hym & Hr).
  apply bind_inv in Hr as (time & Ht & Hr).
  apply bind_inv in Hr as (vols & Hv & Hr). cbn beta zeta in Hr.
  apply bind_inv in Hr as ([xvel yvel] & Hloop & Hr).
  apply bind_inv in Hr as (vel & Hvel & Hr).
  injection Hr as <-. cbn.
  change (read_output_body xmom ymom stage elev h)
    with (centroid_body velocity_row xmom ymom stage elev h) in Hloop.
  apply time_loop_shape in Hloop as [[X1 X2] [Y1 Y2]].
  unfold np.nrows, np.map2 in *. cbn in *. rewrite length_map in X1, Y1.
  exists fid. unfold reads, getValue in *.
  destruct (var_x fid), (var_y fid), (var_stage fid), (var_elevation fid),
    (var_xmomentum fid), (var_ymomentum fid), (var_time fid),
    (var_volumes fid); try discriminate.
  injection Hx as ->. injection Hy as ->. injection Hst as ->.
  injection He as ->. injection Hxm as ->. injection Hym as ->.
  injection Ht as ->. injection Hv as ->.
  unfold same_shape, np.nrows. repeat split; assumption.
Qed.

Lemma speed_entries (X Y V : ndarray2) (t i : nat) (v : float) :
  speed X Y = Ok V -> get2 V t i = Some v -> exists u, v = PrimFloat.sqrt u.
Proof.
  unfold speed. intros Hs Hv.
  apply bind_inv in Hs as (S & _ & Hs). injection Hs as <-.
  rewrite map2_get2 in Hv.
  destruct (get2 S t i) as [u|]; [|discriminate].
  injection Hv as <-. eauto.
Qed.

Section ReadOutputAlways.
Local Open Scope float_scope.
Variable NetCDFFile : string -> result sww.

(** X1: whenever [read_output] returns, the file could be opened and the
    [Output] carries the eight variables of the store exactly as stored,
    together with the [minimum_allowed_height] it was given: nothing it
    reads is altered. *)
Theorem X1_read_output_carries_store (filename : string) (h : float)
    (out : Output.t) :
  read_output NetCDFFile filename h = Ok out ->
  exists fid,
    NetCDFFile filename = Ok fid /\ reads fid out
    /\ Output.minimum_allowed_height out = h.
Proof.
  intros Hr. destruct (read_output_inv _ _ _ _ Hr) as (fid & ? & ? & ? & _).
  eauto.
Qed.

(** X2: whenever [read_output] returns, [xvel] has the shape of [xmom] and
    [yvel] the shape of [ymom]: the loop over time steps assigns rows and
    never changes a shape, whatever the shapes of [stage] and [elev]. *)
Theorem X2_read_output_velocity_shapes (filename : string) (h : float)
    (out : Output.t) :
  read_output NetCDFFile filename h = Ok out ->
  same_shape (Output.xvel out) (Output.xmom out)
  /\ same_shape (Output.yvel out) (Output.ymom out).
Proof.
  intros Hr.
  destruct (read_output_inv _ _ _ _ Hr) as (fid & _ & _ & _ & ? & ? & _).
  auto.
Qed.

(** X3: whenever [read_output] returns, no entry of the velocity magnitude
    [vel] is below zero: each is a square root, hence positive, a zero or
    NaN. *)
Theorem X3_read_output_speed_not_negative (filename : string) (h : float)
    (out : Output.t) (t i : nat) (v : float) :
  read_output NetCDFFile filename h = Ok out ->
  get2 (Output.vel out) t i = Some v ->
  (v <? 0) = false.
Proof.
  intros Hr Hv.
  destruct (read_output_inv _ _ _ _ Hr) as (fid & _ & _ & _ & _ & _ & Hs).
  destruct (speed_entries _ _ _ _ _ _ Hs Hv) as [u ->].
  apply sqrt_not_negative.
Qed.
End ReadOutputAlways.

Section ReadOutputAlwaysExamples.
Local Open Scope float_scope.

Lemma X1_read_output_carries_store_witness :
  exists out,
    read_output example_files "long_stage.sww" h_default = Ok out
    /\ exists fid,
         example_files "long_stage.sww" = Ok fid /\ reads fid out
         /\ Output.minimum_allowed_height out = h_default.
Proof.
  eexists. split; [vm_compute; reflexivity|].
  apply (X1_read_output_carries_store example_files "long_stage.sww").
  vm_compute. reflexivity.
Defined.

Lemma X2_read_output_velocity_shapes_witness :
  exists out,
    read_output example_files "long_stage.sww" h_default = Ok out
    /\ same_shape (Output.xvel out) (Output.xmom out)
    /\ same_shape (Output.yvel out) (Output.ymom out).
Proof.
  eexists. split; [vm_compute; reflexivity|].
  apply (X2_read_output_velocity_shapes example_files "long_stage.sww"
           h_default).
  vm_compute. reflexivity.
Defined.

Lemma X3_read_output_speed_not_negative_witness :
  exists out v,
    read_output example_files "below_bed.sww" h_default = Ok out
    /\ get2 (Output.vel out) 0 0 = Some v /\ (v <? 0) = false.
Proof.
  do 2 eexists. split; [vm_compute; reflexivity|].
  split; [vm_compute; reflexivity|].
  eapply (X3_read_output_speed_not_negative example_files "below_bed.sww"
            h_default _ 0 0); [vm_compute; reflexivity | reflexivity].
Defined.
End ReadOutputAlwaysExamples.

(** ** [combine_outputs] on several files *)

Lemma append0_inv (M N R : ndarray2) :
  np.append0 M N = Ok R ->
  np.rows R = (np.rows M ++ np.rows N)%list /\ np.ncols R = np.ncols M.
Proof.
  unfold np.append0. destruct (np.ncols M =? np.ncols N)%nat; [|discriminate].
  intros [= <-]. auto.
Qed.

Lemma assert_inv (c : bool) (u : unit) : assert c = Ok u -> c = true.
Proof. destruct c; [reflexivity | discriminate]. Qed.

Lemma combine_append_inv (p1 q p : Output.t) :
  combine_append p1 q = Ok p ->
  same_mesh p1 q /\ concatenated p1 [q] p.
Proof.
  unfold combine_append. intros Hc.
  apply bind_inv in Hc as (ex & Hex & Hc).
  apply bind_inv in Hc as (u1 & Ha1 & Hc). apply assert_inv in Ha1. subst ex.
  apply bind_inv in Hc as (ey & Hey & Hc).
  apply bind_inv in Hc as (u2 & Ha2 & Hc). apply assert_inv in Ha2. subst ey.
  apply bind_inv in Hc as (ev & Hev & Hc).
  apply bind_inv in Hc as (u3 & Ha3 & Hc). apply assert_inv in Ha3. subst ev.
  cbn beta zeta in Hc.
  apply bind_inv in Hc as (stage & Hst & Hc).
  apply bind_inv in Hc as (xmom & Hxm & Hc).
  apply bind_inv in Hc as (ymom & Hym & Hc).
  apply bind_inv in Hc as (xvel & Hxv & Hc).
  apply bind_inv in Hc as (yvel & Hyv & Hc).
  apply bind_inv in Hc as (vel & Hv & Hc).
  injection Hc as <-.
  split; [repeat split; assumption|].
  unfold concatenated. cbn. rewrite !app_nil_r.
  do 6 (split; [reflexivity|]).
  intros series Hin. rewrite app_nil_r.
  destruct Hin as [<-|[<-|[<-|[<-|[<-|[<-|[]]]]]]]; cbn;
    eapply append0_inv; eassumption.
Qed.

Lemma concatenated_step (p0 q p1 p : Output.t) (ps : list Output.t) :
  concatenated p0 [q] p1 -> concatenated p1 ps p ->
  concatenated p0 (q :: ps) p.
Proof.
  intros (X1 & Y1 & V1 & E1 & H1 & T1 & S1) (X2 & Y2 & V2 & E2 & H2 & T2 & S2).
  unfold concatenated. cbn in *. rewrite app_nil_r in T1.
  do 5 (split; [congruence|]). split.
  - rewrite T2, T1, <- app_assoc. reflexivity.
  - intros series Hin.
    destruct (S1 series Hin) as [R1 C1]. destruct (S2 series Hin) as [R2 C2].
    rewrite app_nil_r in R1. split; [|congruence].
    rewrite R2, R1, <- app_assoc. reflexivity.
Qed.

Lemma same_mesh_step (p0 q p1 r : Output.t) :
  concatenated p0 [q] p1 -> same_mesh p1 r -> same_mesh p0 r.
Proof.
  intros (X1 & Y1 & V1 & _) (A & B & C). unfold same_mesh.
  rewrite <- X1, <- Y1, <- V1. auto.
Qed.

Lemma combine_all_spec (ps : list Output.t) :
  forall p0 p, combine_all p0 ps = Ok p ->
    concatenated p0 ps p /\ Forall (same_mesh p0) ps.
Proof.
  induction ps as [|q ps IH]; intros p0 p; cbn.
  - intros [= <-]. split; [|constructor].
    unfold concatenated. cbn. rewrite app_nil_r.
    do 6 (split; [reflexivity|]).
    intros series _. now rewrite app_nil_r.
  - intros Hc. apply bind_inv in Hc as (p1 & H1 & Hc).
    apply combine_append_inv in H1 as [Hm H1].
    destruct (IH p1 p Hc) as [Hcat Hall].
    split; [eapply concatenated_step; eassumption|].
    constructor; [assumption|].
    eapply Forall_impl; [exact Hall|].
    intros r Hr. eapply same_mesh_step; eassumption.
Qed.

Section CombineFacts.
Local Open Scope float_scope.
Variable NetCDFFile : string -> result sww.

Lemma combine_loop_spec (fs : list string) (h : float) :
  forall i q r,
    combine_loop NetCDFFile fs h (S i) (Some q) = Ok r ->
    exists ps p,
      mapM (fun f => get_output NetCDFFile f h) fs = Ok ps
      /\ combine_all q ps = Ok p /\ r = Some p.
Proof.
  induction fs as [|f fs IH]; intros i q r; cbn.
  - intros [= <-]. exists [], q. auto.
  - intros Hl. apply bind_inv in Hl as (p_tmp & Hget & Hl).
    apply bind_inv in Hl as (p1' & Happ & Hl).
    destruct (IH _ _ _ Hl) as (ps & p & Hps & Hall & ->).
    exists (p_tmp :: ps), p. rewrite Hget, Hps. cbn. rewrite Happ. auto.
Qed.

Lemma combine_outputs_inv (f : string) (fs : list string) (h : float)
    (p : Output.t) :
  combine_outputs NetCDFFile (f :: fs) h = Ok p ->
  exists p0 ps,
    get_output NetCDFFile f h = Ok p0
    /\ mapM (fun g => get_output NetCDFFile g h) fs = Ok ps
    /\ combine_all p0 ps = Ok p.
Proof.
  unfold combine_outputs. cbn [combine_loop]. intros Hc.
  apply bind_inv in Hc as (r & Hl & Hc).
  apply bind_inv in Hl as (p0 & Hget & Hl).
  cbn in Hl. destruct (combine_loop_spec fs h 0 p0 r Hl)
    as (ps & p' & Hps & Hall & ->).
  injection Hc as <-. exists p0, ps. repeat split; try assumption.
  rewrite Hall. destruct p'; reflexivity.
Qed.
End CombineFacts.

Lemma forallb_id_false (l : list bool) (i : nat) :
  l !! i = Some false -> forallb (fun v : bool => v) l = false.
Proof.
  revert i. induction l as [|b l IH]; intros [|i]; cbn; try discriminate.
  - intros [= ->]. reflexivity.
  - intros Hi. rewrite (IH i Hi). apply andb_false_r.
Qed.

Lemma all_equal_differ {A : Type} (eqb : A -> A -> bool) (a b : list A)
    (i : nat) (u w : A) :
  length a = length b -> a !! i = Some u -> b !! i = Some w ->
  eqb u w = false -> np.all_equal eqb a b = Ok false.
Proof.
  intros Hl Ha Hb Hne. unfold np.all_equal, np.compatible.
  rewrite Hl, Nat.eqb_refl. cbn [orb]. rewrite bzip_same by assumption.
  f_equal. apply (forallb_id_false _ i).
  rewrite lookup_zip_with, Ha, Hb. cbn. now rewrite Hne.
Qed.

Lemma combine_differ_x (NetCDFFile : string -> result sww)
    (f1 f2 : string) (fs : list string) (h : float) (p1 p2 : Output.t)
    (i : nat) (a b : float) :
  get_output NetCDFFile f1 h = Ok p1 -> get_output NetCDFFile f2 h = Ok p2 ->
  length (Output.x p1) = length (Output.x p2) ->
  Output.x p1 !! i = Some a -> Output.x p2 !! i = Some b ->
  PrimFloat.eqb a b = false ->
  combine_outputs NetCDFFile (f1 :: f2 :: fs) h = Raise "AssertionError".
Proof.
  intros H1 H2 Hl Ha Hb Hne. unfold combine_outputs. cbn [combine_loop].
  rewrite H1. cbn. rewrite H2. cbn [bind]. unfold combine_append.
  rewrite (all_equal_differ PrimFloat.eqb _ _ i a b Hl Ha Hb Hne).
  reflexivity.
Qed.

Section CombineProperties.
Local Open Scope float_scope.
Variable NetCDFFile : string -> result sww.

(** X4: whenever [combine_outputs] returns on a list of files, every file
    of the list could be read, and the result has the points, triangles,
    elevation and threshold of the first file while its time axis and its
    six time series are those of the files one after another, in the order
    of the list: nothing is sorted, dropped or merged. *)
Theorem X4_combine_outputs_concatenates (f : string) (fs : list string)
    (h : float) (p : Output.t) :
  combine_outputs NetCDFFile (f :: fs) h = Ok p ->
  exists p0 ps,
    get_output NetCDFFile f h = Ok p0
    /\ mapM (fun g => get_output NetCDFFile g h) fs = Ok ps
    /\ concatenated p0 ps p.
Proof.
  intros Hc.
  destruct (combine_outputs_inv NetCDFFile f fs h p Hc)
    as (p0 & ps & H0 & Hps & Hall).
  exists p0, ps. split; [assumption|]. split; [assumption|].
  exact (proj1 (combine_all_spec ps p0 p Hall)).
Qed.

(** X5: whenever [combine_outputs] returns, each file after the first
    passed the three checks against the first one: its [x], its [y] and its
    [vols] compare equal to those of the first file, entry by entry. *)
Theorem X5_combine_outputs_same_mesh (f : string) (fs : list string)
    (h : float) (p : Output.t) :
  combine_outputs NetCDFFile (f :: fs) h = Ok p ->
  exists p0 ps,
    get_output NetCDFFile f h = Ok p0
    /\ mapM (fun g => get_output NetCDFFile g h) fs = Ok ps
    /\ Forall (same_mesh p0) ps.
Proof.
  intros Hc.
  destruct (combine_outputs_inv NetCDFFile f fs h p Hc)
    as (p0 & ps & H0 & Hps & Hall).
  exists p0, ps. split; [assumption|]. split; [assumption|].
  exact (proj2 (combine_all_spec ps p0 p Hall)).
Qed.

(** X6: when the first two files have [x] arrays of one length that differ
    at some point, [combine_outputs] fails with [AssertionError], whatever
    files follow. *)
Theorem X6_combine_outputs_differing_x (f1 f2 : string) (fs : list string)
    (h : float) (p1 p2 : Output.t) (i : nat) (a b : float) :
  get_output NetCDFFile f1 h = Ok p1 -> get_output NetCDFFile f2 h = Ok p2 ->
  length (Output.x p1) = length (Output.x p2) ->
  Output.x p1 !! i = Some a -> Output.x p2 !! i = Some b ->
  (a =? b) = false ->
  combine_outputs NetCDFFile (f1 :: f2 :: fs) h = Raise "AssertionError".
Proof. apply combine_differ_x. Qed.

(** X7: a file whose [x] holds a NaN cannot be combined even with itself:
    NaN compares unequal to NaN, so the check on [x] fails with
    [AssertionError]. *)
Theorem X7_combine_outputs_nan_x (f : string) (fs : list string) (h : float)
    (p : Output.t) (i : nat) (v : float) :
  get_output NetCDFFile f h = Ok p ->
  Output.x p !! i = Some v -> is_nan v = true ->
  combine_outputs NetCDFFile (f :: f :: fs) h = Raise "AssertionError".
Proof.
  intros Hp Hv Hnan.
  apply (combine_differ_x NetCDFFile f f fs h p p i v v); try assumption.
  - reflexivity.
  - unfold is_nan in Hnan. now destruct (v =? v).
Qed.

(** On an empty list of files the loop never binds [p1], which the final
    assignment reads. *)
Example combine_outputs_empty (h : float) :
  combine_outputs NetCDFFile [] h = Raise "UnboundLocalError".
Proof. reflexivity. Qed.
End CombineProperties.

Section CombineExamples.
Local Open Scope float_scope.

Lemma X4_combine_outputs_concatenates_witness :
  exists p p0 ps,
    combine_outputs example_files ["triangle.sww"; "triangle_lowered.sww"]
      h_default = Ok p
    /\ get_output example_files "triangle.sww" h_default = Ok p0
    /\ mapM (fun g => get_output example_files g h_default)
            ["triangle_lowered.sww"] = Ok ps
    /\ concatenated p0 ps p.
Proof.
  eexists.
  assert (Hc : combine_outputs example_files
                 ["triangle.sww"; "triangle_lowered.sww"] h_default = Ok _)
    by (vm_compute; reflexivity).
  destruct (X4_combine_outputs_concatenates example_files _ _ _ _ Hc)
    as (p0 & ps & H0 & Hps & Hcat).
  exists p0, ps. exact (conj Hc (conj H0 (conj Hps Hcat))).
Defined.

Lemma X5_combine_outputs_same_mesh_witness :
  exists p p0 ps,
    combine_outputs example_files ["triangle.sww"; "triangle_lowered.sww"]
      h_default = Ok p
    /\ get_output example_files "triangle.sww" h_default = Ok p0
    /\ mapM (fun g => get_output example_files g h_default)
            ["triangle_lowered.sww"] = Ok ps
    /\ Forall (same_mesh p0) ps.
Proof.
  eexists.
  assert (Hc : combine_outputs example_files
                 ["triangle.sww"; "triangle_lowered.sww"] h_default = Ok _)
    by (vm_compute; reflexivity).
  destruct (X5_combine_outputs_same_mesh example_files _ _ _ _ Hc)
    as (p0 & ps & H0 & Hps & Hm).
  exists p0, ps. exact (conj Hc (conj H0 (conj Hps Hm))).
Defined.

Lemma X6_combine_outputs_differing_x_witness :
  combine_outputs more_files ["pond.sww"; "pond_shifted.sww"] h_default
  = Raise "AssertionError".
Proof.
  eapply (X6_combine_outputs_differing_x more_files "pond.sww"
            "pond_shifted.sww" [] h_default _ _ 1 1 2);
    [vm_compute; reflexivity | vm_compute; reflexivity | reflexivity ..].
Defined.

Lemma X7_combine_outputs_nan_x_witness :
  combine_outputs more_files ["nan_point.sww"; "nan_point.sww"] h_default
  = Raise "AssertionError".
Proof.
  eapply (X7_combine_outputs_nan_x more_files "nan_point.sww" [] h_default
            _ 0 nan); [vm_compute; reflexivity | reflexivity ..].
Defined.
End CombineExamples.

(** ** What [get_centroid_values] returns, whenever it returns *)

Lemma get_centroid_values_inv (p : Output.t) (ve : bool) (c : Centroids.t) :
  get_centroid_values p ve = Ok c ->
  let v0 := vols_column 0 (Output.vols p) in
  let v1 := vols_column 1 (Output.vols p) in
  let v2 := vols_column 2 (Output.vols p) in
  centroid1 (Output.x p) v0 v1 v2 = Ok (Centroids.x c)
  /\ centroid1 (Output.y p) v0 v1 v2 = Ok (Centroids.y c)
  /\ centroid2 (Output.stage p) v0 v1 v2 = Ok (Centroids.stage c)
  /\ centroid1 (Output.elev p) v0 v1 v2 = Ok (Centroids.elev c)
  /\ Centroids.time c = Output.time p
  /\ speed (Centroids.xvel c) (Centroids.yvel c) = Ok (Centroids.vel c)
  /\ (if ve
      then centroid2 (Output.xvel p) v0 v1 v2 = Ok (Centroids.xvel c)
           /\ centroid2 (Output.yvel p) v0 v1 v2 = Ok (Centroids.yvel c)
           /\ same_shape (Centroids.xmom c) (Centroids.stage c)
           /\ same_shape (Centroids.ymom c) (Centroids.stage c)
      else centroid2 (Output.xmom p) v0 v1 v2 = Ok (Centroids.xmom c)
           /\ centroid2 (Output.ymom p) v0 v1 v2 = Ok (Centroids.ymom c)
           /\ same_shape (Centroids.xvel c) (Centroids.stage c)
           /\ same_shape (Centroids.yvel c) (Centroids.stage c)).
Proof.
  unfold get_centroid_values, vols_column. cbn zeta. intros Hg.
  apply bind_inv in Hg as (xc & Hx & Hg).
  apply bind_inv in Hg as (yc & Hy & Hg).
  apply bind_inv in Hg as (sc & Hs & Hg).
  apply bind_inv in Hg as (ec & He & Hg).
  apply bind_inv in Hg as ([[xm ym] [xv yv]] & Hr & Hg).
  apply bind_inv in Hg as (vc & Hv & Hg). injection Hg as <-. cbn.
  do 6 (split; [first [assumption | reflexivity]|]).
  assert (Hz : forall M, same_shape M (np.map2 (fun v => (v * 0)%float) sc)
                         -> same_shape M sc).
  { intros M [A B]. unfold same_shape, np.nrows, np.map2 in *. cbn in *.
    rewrite length_map in A. auto. }
  destruct ve.
  - apply bind_inv in Hr as (xv' & Hxv & Hr).
    apply bind_inv in Hr as (yv' & Hyv & Hr). cbn zeta in Hr.
    apply bind_inv in Hr as ([xm' ym'] & Hloop & Hr).
    injection Hr as <- <- <- <-.
    apply time_loop_shape in Hloop as [SX SY]. auto.
  - apply bind_inv in Hr as (xm' & Hxm & Hr).
    apply bind_inv in Hr as (ym' & Hym & Hr). cbn zeta in Hr.
    apply bind_inv in Hr as ([xv' yv'] & Hloop & Hr).
    injection Hr as <- <- <- <-.
    apply time_loop_shape in Hloop as [SX SY]. auto.
Qed.

Lemma vols_column_length (k : nat) (vols : list (Z * Z * Z)) :
  length (vols_column k vols) = length vols.
Proof.
  destruct k as [|[|k]]; cbn; apply length_map.
Qed.

Lemma centroid1_length (a : list float) (v0 v1 v2 : list Z)
    (r : list float) :
  length v0 = length v1 -> length v1 = length v2 ->
  centroid1 a v0 v1 v2 = Ok r -> length r = length v0.
Proof.
  intros L01 L12. unfold centroid1. intros Hc.
  apply bind_inv in Hc as (a0 & H0 & Hc).
  apply bind_inv in Hc as (a1 & H1 & Hc).
  apply bind_inv in Hc as (s01 & H01 & Hc).
  apply bind_inv in Hc as (a2 & H2 & Hc).
  apply bind_inv in Hc as (s & Hs & Hc). injection Hc as <-.
  apply mapM_length in H0, H1, H2.
  apply broadcast_inv in H01; [|lia]. subst s01.
  apply broadcast_inv in Hs; [|rewrite length_zip_with; lia]. subst s.
  rewrite length_map, !length_zip_with. lia.
Qed.

Lemma take_cols_ncols (M R : ndarray2) (idx : list Z) :
  np.take_cols M idx = Ok R -> np.ncols R = length idx.
Proof.
  unfold np.take_cols. destruct (forallb _ idx); [|discriminate].
  intros Hc. apply bind_inv in Hc as (rs & _ & Hc). now injection Hc as <-.
Qed.

Lemma broadcast2_ncols (f : float -> float -> float) (M N V : ndarray2) :
  np.broadcast2 f M N = Ok V -> np.ncols M = np.ncols N ->
  np.ncols V = np.ncols M.
Proof.
  unfold np.broadcast2. destruct (_ && _); [|discriminate].
  intros [= <-] Hc. cbn. rewrite <- Hc. unfold np.bshape.
  now destruct (np.ncols M =? 1)%nat.
Qed.

Lemma centroid2_ncols (M C : ndarray2) (v0 v1 v2 : list Z) :
  length v0 = length v1 -> length v1 = length v2 ->
  centroid2 M v0 v1 v2 = Ok C -> np.ncols C = length v0.
Proof.
  intros L01 L12. unfold centroid2. intros Hc.
  apply bind_inv in Hc as (m0 & H0 & Hc).
  apply bind_inv in Hc as (m1 & H1 & Hc).
  apply bind_inv in Hc as (s01 & H01 & Hc).
  apply bind_inv in Hc as (m2 & H2 & Hc).
  apply bind_inv in Hc as (s & Hs & Hc). injection Hc as <-. cbn.
  apply take_cols_ncols in H0, H1, H2.
  apply broadcast2_ncols in H01; [|congruence].
  apply broadcast2_ncols in Hs; congruence.
Qed.

Lemma speed_ncols (X Y V : ndarray2) :
  speed X Y = Ok V -> np.ncols X = np.ncols Y -> np.ncols V = np.ncols X.
Proof.
  unfold speed. intros Hs Hc. apply bind_inv in Hs as (S & HS & Hs).
  injection Hs as <-. cbn. apply broadcast2_ncols in HS; assumption.
Qed.

(** X8: whenever [get_centroid_values] returns, with either flag, every
    field of its result is indexed by triangles: [x], [y] and [elev] have
    [len(p.vols)] entries and the six time series have [len(p.vols)]
    columns, whatever the number of vertices. *)
Theorem X8_centroids_indexed_by_triangles (p : Output.t)
    (velocity_extrapolation : bool) (c : Centroids.t) :
  get_centroid_values p velocity_extrapolation = Ok c ->
  triangle_indexed p c.
Proof.
  intros Hg. apply get_centroid_values_inv in Hg. cbn zeta in Hg.
  destruct Hg as (Hx & Hy & Hs & He & _ & Hv & Hb).
  pose proof (vols_column_length 0 (Output.vols p)) as L0.
  pose proof (vols_column_length 1 (Output.vols p)) as L1.
  pose proof (vols_column_length 2 (Output.vols p)) as L2.
  apply centroid1_length in Hx, Hy, He; try lia.
  apply centroid2_ncols in Hs; try lia.
  assert (Hxy : np.ncols (Centroids.xmom c) = length (Output.vols p)
                /\ np.ncols (Centroids.ymom c) = length (Output.vols p)
                /\ np.ncols (Centroids.xvel c) = length (Output.vols p)
                /\ np.ncols (Centroids.yvel c) = length (Output.vols p)).
  { destruct velocity_extrapolation;
      destruct Hb as (A & B & [_ SA] & [_ SB]);
      apply centroid2_ncols in A, B; try lia;
      repeat split; lia. }
  destruct Hxy as (Cxm & Cym & Cxv & Cyv).
  apply speed_ncols in Hv; [|lia].
  unfold triangle_indexed. cbn zeta.
  repeat split; try lia.
  intros series Hin.
  destruct Hin as [<-|[<-|[<-|[<-|[<-|[<-|[]]]]]]]; lia.
Qed.

Lemma X8_centroids_indexed_by_triangles_witness :
  exists p c,
    read_output example_files "triangle.sww" h_default = Ok p
    /\ get_centroid_values p true = Ok c /\ triangle_indexed p c.
Proof.
  do 2 eexists. split; [vm_compute; reflexivity|].
  match goal with
  | |- ?G /\ _ => assert (Hg : G) by (vm_compute; reflexivity)
  end.
  exact (conj Hg (X8_centroids_indexed_by_triangles _ _ _ Hg)).
Defined.

(** ** Triangles that name a missing vertex *)

Lemma forallb_valid_Forall (n : nat) (idx : list Z) :
  forallb (fun i => bool_decide (is_Some (np.norm_index n i))) idx = true ->
  Forall (fun i => is_Some (np.norm_index n i)) idx.
Proof.
  rewrite forallb_forall, Forall_forall. intros Hf i Hi.
  apply list_elem_of_In in Hi. apply Hf in Hi.
  now apply bool_decide_eq_true in Hi.
Qed.

Lemma take_invalid {A : Type} (a : list A) (idx : list Z) :
  forallb (fun i => bool_decide (is_Some (np.norm_index (length a) i))) idx
  = false ->
  np.take a idx = Raise "IndexError".
Proof.
  unfold np.take. induction idx as [|i idx IH]; cbn; [discriminate|].
  destruct (bool_decide (is_Some (np.norm_index (length a) i))) eqn:Ei; cbn.
  - intros Hrest. apply bool_decide_eq_true in Ei.
    destruct (getitem_valid a i Ei) as [v ->]. cbn. now rewrite (IH Hrest).
  - intros _. apply bool_decide_eq_false in Ei.
    unfold np.getitem.
    destruct (np.norm_index (length a) i) as [k|]; [|reflexivity].
    exfalso. apply Ei. eauto.
Qed.

Lemma valid_triangles_columns (N : nat) (vols : list (Z * Z * Z)) :
  forallb (valid_triangle N) vols
  = forallb (fun i => bool_decide (is_Some (np.norm_index N i)))
            (vols_column 0 vols)
    && forallb (fun i => bool_decide (is_Some (np.norm_index N i)))
               (vols_column 1 vols)
    && forallb (fun i => bool_decide (is_Some (np.norm_index N i)))
               (vols_column 2 vols).
Proof.
  induction vols as [|[[v0 v1] v2] vols IH]; cbn; [reflexivity|].
  cbn in IH. rewrite IH.
  destruct (bool_decide (is_Some (np.norm_index N v0))),
    (bool_decide (is_Some (np.norm_index N v1))),
    (bool_decide (is_Some (np.norm_index N v2))); cbn;
    rewrite ?andb_false_r; try reflexivity.
  all: destruct (forallb _ (map _ vols)); cbn; rewrite ?andb_false_r;
    reflexivity.
Qed.

Lemma centroid1_invalid (a : list float) (vols : list (Z * Z * Z)) :
  forallb (valid_triangle (length a)) vols = false ->
  centroid1 a (vols_column 0 vols) (vols_column 1 vols) (vols_column 2 vols)
  = Raise "IndexError".
Proof.
  rewrite valid_triangles_columns. intros Hv. unfold centroid1.
  destruct (forallb _ (vols_column 0 vols)) eqn:E0; cbn [andb] in Hv;
    [|now rewrite (take_invalid a _ E0)].
  destruct (take_valid a _ (forallb_valid_Forall _ _ E0)) as [a0 H0].
  rewrite H0. cbn [bind].
  destruct (forallb _ (vols_column 1 vols)) eqn:E1; cbn [andb] in Hv;
    [|now rewrite (take_invalid a _ E1)].
  destruct (take_valid a _ (forallb_valid_Forall _ _ E1)) as [a1 H1].
  rewrite H1. cbn [bind].
  rewrite broadcast_same; cbn [bind].
  - now rewrite (take_invalid a _ Hv).
  - apply mapM_length in H0, H1.
    rewrite H0, H1, !vols_column_length. reflexivity.
Qed.

(** X9: when some triangle of [p.vols] names a vertex that [p.x] does not
    have (an index outside [[-N, N)] for [N] points), [get_centroid_values]
    fails with [IndexError], with either flag and whatever the other
    fields hold. *)
Theorem X9_centroids_missing_vertex (p : Output.t)
    (velocity_extrapolation : bool) :
  forallb (valid_triangle (length (Output.x p))) (Output.vols p) = false ->
  get_centroid_values p velocity_extrapolation = Raise "IndexError".
Proof.
  intros Hv. unfold get_centroid_values.
  change (map (fun v : Z * Z * Z => fst (fst v)) (Output.vols p))
    with (vols_column 0 (Output.vols p)).
  change (map (fun v : Z * Z * Z => snd (fst v)) (Output.vols p))
    with (vols_column 1 (Output.vols p)).
  change (map (fun v : Z * Z * Z => snd v) (Output.vols p))
    with (vols_column 2 (Output.vols p)).
  cbn zeta. now rewrite (centroid1_invalid _ _ Hv).
Qed.

Lemma X9_centroids_missing_vertex_witness :
  exists p,
    read_output more_files "stray_vertex.sww" h_default = Ok p
    /\ get_centroid_values p false = Raise "IndexError".
Proof.
  eexists. split; [vm_compute; reflexivity|].
  apply X9_centroids_missing_vertex. reflexivity.
Defined.

(** ** Averaged velocities *)

(** X10: on a well-shaped [Output], [get_centroids] with
    [velocity_extrapolation = True] returns; at every time step its x- and
    y-velocity are the averages of the vertex velocities over each
    triangle, and its momenta are re-derived from them as
    [vel * (stage - elev + 1.0e-06) * (stage > elev + h)] on the centroid
    stage and elevation. *)
Theorem X10_centroid_momentum_from_averaged_velocity (T N : nat)
    (p : Output.t) :
  output_shaped T N p = true ->
  exists c,
    get_centroids p true = Ok c
    /\ centroid_velocities_averaged p c
    /\ centroid_momenta_derived p c.
Proof.
  intros Hp.
  destruct (get_centroid_values_spec T N p true Hp)
    as (c & Hc & _ & _ & _ & Hm).
  exists c. split; [exact Hc|]. split; [|now apply Hm].
  destruct (output_shaped_elim T N p Hp)
    as (_ & _ & _ & _ & _ & _ & _ & Sxv & Syv & Hv).
  destruct (get_centroid_values_inv p true c Hc)
    as (_ & _ & _ & _ & _ & _ & Hx & Hy & _).
  destruct (centroid2_mean T N p (Output.xvel p) Hv Sxv) as (X & HX & _ & MX).
  destruct (centroid2_mean T N p (Output.yvel p) Hv Syv) as (Y & HY & _ & MY).
  unfold vols_column in Hx, Hy. rewrite HX in Hx. rewrite HY in Hy.
  injection Hx as ->. injection Hy as ->.
  intros j v Hj. split; intros t r Hr; eauto.
Qed.

Lemma X10_centroid_momentum_from_averaged_velocity_witness :
  exists p,
    read_output example_files "triangle.sww" h_default = Ok p
    /\ exists c,
         get_centroids p true = Ok c
         /\ centroid_velocities_averaged p c
         /\ centroid_momenta_derived p c.
Proof.
  eexists. split; [vm_compute; reflexivity|].
  apply (X10_centroid_momentum_from_averaged_velocity 2 3). reflexivity.
Defined.

(** ** The selection of [near_transect] *)

Lemma nonzero_from_spec (m : list bool) :
  forall (i z : Z),
    In z (np.nonzero_from i m) <->
    exists k : nat, z = (i + Z.of_nat k)%Z /\ m !! k = Some true.
Proof.
  induction m as [|b m IH]; intros i z; cbn.
  - split; [intros [] | intros (k & _ & Hk); discriminate].
  - assert (Htail : In z (np.nonzero_from (i + 1) m) <->
              exists k : nat, z = (i + Z.of_nat (S k))%Z /\ m !! k = Some true).
    { rewrite IH. split; intros (k & -> & Hk); exists k; split; auto; lia. }
    destruct b; cbn; rewrite ?Htail.
    + split.
      * intros [<- | (k & -> & Hk)]; [exists 0%nat | exists (S k)]; cbn;
          split; auto; lia.
      * intros ([|k] & -> & Hk); [left; lia | right; eauto].
    + split.
      * intros (k & -> & Hk). exists (S k). auto.
      * intros ([|k] & -> & Hk); [discriminate | eauto].
Qed.

Lemma nonzero_from_sorted (m : list bool) :
  forall i : Z, StronglySorted Z.lt (np.nonzero_from i m).
Proof.
  induction m as [|b m IH]; intros i; cbn; [constructor|].
  destruct b; [|apply IH]. constructor; [apply IH|].
  apply Forall_forall. intros z Hz. apply list_elem_of_In in Hz.
  apply nonzero_from_spec in Hz as (k & -> & _). lia.
Qed.

Lemma getitem_nonneg_inv {A : Type} (a : list A) (k : nat) (v : A) :
  np.getitem a (Z.of_nat k) = Ok v -> a !! k = Some v.
Proof.
  unfold np.getitem, np.norm_index.
  destruct ((0 <=? Z.of_nat k)%Z && (Z.of_nat k <? Z.of_nat (length a))%Z)
    eqn:E.
  - rewrite Nat2Z.id. destruct (a !! k); [now intros [= <-] | discriminate].
  - destruct ((- Z.of_nat (length a) <=? Z.of_nat k)%Z
              && (Z.of_nat k <? 0)%Z) eqn:E2; [|discriminate].
    apply andb_prop in E2 as [_ E2]. apply Z.ltb_lt in E2. lia.
Qed.

Section Selection.
Local Open Scope float_scope.
Context {P : Type} `{HasPoints P}.

Lemma near_transect_inv (p : P) (x1 y1 x2 y2 tol : float)
    (idx : list Z) (coords : list float) :
  near_transect p (x1, y1) (x2, y2) tol = Ok (idx, coords) ->
  exists a b c w s sel_x sel_y g1x g1y,
    line_equation x1 y1 x2 y2 = Ok (a, b, c)
    /\ inverse_norm a b = Ok w
    /\ np.broadcast PrimFloat.add (map (fun v => v * a) (points_x p))
                                  (map (fun v => v * b) (points_y p)) = Ok s
    /\ idx = np.nonzero (map (fun v => abs (v + c) * w <? tol) s)
    /\ np.take (points_x p) idx = Ok sel_x
    /\ np.take (points_y p) idx = Ok sel_y
    /\ coords = zip_with PrimFloat.add
                  (map (fun v => g1x * (v - x1)) sel_x)
                  (map (fun v => g1y * (v - y1)) sel_y).
Proof.
  unfold near_transect. cbn [fst snd]. intros Hn.
  apply bind_inv in Hn as ([[a b] c] & Habc & Hn). cbn beta zeta in Hn.
  apply bind_inv in Hn as (a2 & Ha2 & Hn).
  apply bind_inv in Hn as (b2 & Hb2 & Hn).
  apply bind_inv in Hn as (den & Hden & Hn).
  apply bind_inv in Hn as (w & Hw & Hn).
  apply bind_inv in Hn as (s & Hs & Hn). cbn beta zeta in Hn.
  apply bind_inv in Hn as (gx2 & _ & Hn).
  apply bind_inv in Hn as (gy2 & _ & Hn).
  apply bind_inv in Hn as (g1_norm & _ & Hn).
  apply bind_inv in Hn as (g1x & _ & Hn).
  apply bind_inv in Hn as (g1y & _ & Hn).
  apply bind_inv in Hn as (sel_x & Hx & Hn). cbn beta zeta in Hn.
  apply bind_inv in Hn as (sel_y & Hy & Hn). cbn beta zeta in Hn.
  apply bind_inv in Hn as (local_coord & Hl & Hn).
  injection Hn as Hidx <-. rewrite map_map in Hidx.
  rewrite map_map in Hx, Hy. rewrite Hidx in Hx, Hy.
  pose proof (mapM_length _ _ _ Hx) as Lx.
  pose proof (mapM_length _ _ _ Hy) as Ly.
  rewrite !map_map in Hl.
  apply broadcast_inv in Hl; [|rewrite !length_map; lia].
  exists a, b, c, w, s, sel_x, sel_y, g1x, g1y.
  repeat split; try assumption; try (symmetry; assumption).
  unfold inverse_norm. rewrite Ha2. cbn [bind]. rewrite Hb2. cbn [bind].
  rewrite Hden. cbn [bind]. exact Hw.
Qed.

(** X11: whenever [near_transect] returns, the selected indices are
    strictly ascending (no point is named twice) and each is a position,
    counted from zero, of both [p.x] and [p.y]. *)
Theorem X11_near_transect_indices_ascending (p : P)
    (point1 point2 : float * float) (tol : float)
    (idx : list Z) (coords : list float) :
  near_transect p point1 point2 tol = Ok (idx, coords) ->
  StronglySorted Z.lt idx
  /\ Forall (fun i => (0 <= i < Z.of_nat (length (points_x p)))%Z
                      /\ (i < Z.of_nat (length (points_y p)))%Z) idx.
Proof.
  destruct point1 as [x1 y1], point2 as [x2 y2]. intros Hn.
  destruct (near_transect_inv p x1 y1 x2 y2 tol idx coords Hn)
    as (a & b & c & w & s & sel_x & sel_y & g1x & g1y
        & _ & _ & _ & Hidx & Hx & Hy & _).
  split; [rewrite Hidx; apply nonzero_from_sorted|].
  apply Forall_forall. intros z Hz.
  destruct (list_elem_of_lookup_1 _ _ Hz) as [k Hk].
  destruct (mapM_lookup _ _ _ k z Hx Hk) as (qx & Gx & _).
  destruct (mapM_lookup _ _ _ k z Hy Hk) as (qy & Gy & _).
  apply list_elem_of_In in Hz. rewrite Hidx in Hz.
  apply nonzero_from_spec in Hz as (j & -> & _). cbn [Z.add] in *.
  apply getitem_nonneg_inv, lookup_lt_Some in Gx.
  apply getitem_nonneg_inv, lookup_lt_Some in Gy. lia.
Qed.

End Selection.

Section SelectionExamples.
Local Open Scope float_scope.

Lemma X11_near_transect_indices_ascending_witness :
  StronglySorted Z.lt [0%Z]
  /\ Forall (fun i => (0 <= i < Z.of_nat (length (points_x two_points)))%Z
                      /\ (i < Z.of_nat (length (points_y two_points)))%Z)
            [0%Z].
Proof.
  apply (X11_near_transect_indices_ascending two_points (0, 0) (10, 0) 1
           [0%Z] [0x1.4333333333333p+2]).
  reflexivity.
Defined.

End SelectionExamples.

(** ** Tolerances that select nothing *)

Section Hopeless.
Local Open Scope float_scope.

Lemma SFcompare_refl (v : spec_float) :
  v <> S754_nan -> SFcompare v v = Some Eq.
Proof.
  destruct v as [s|s| |s m e]; cbn; try congruence; intros _.
  - destruct s; reflexivity.
  - rewrite Z.compare_refl, Pos.compare_cont_refl. destruct s; reflexivity.
Qed.

Lemma is_nan_spec (t : float) : is_nan t = true -> Prim2SF t = S754_nan.
Proof.
  unfold is_nan. rewrite FloatAxioms.eqb_spec. unfold SFeqb.
  destruct (Prim2SF t) as [s|s| |s m e] eqn:E; try reflexivity;
    rewrite SFcompare_refl by discriminate; discriminate.
Qed.

Lemma SFsqrt_plus (v : spec_float) :
  (forall s, v <> S754_zero s) -> plusSF (SF64sqrt v) = true.
Proof.
  destruct v as [s|s| |s m e]; cbn; intros Hz; try reflexivity.
  - exfalso. now apply (Hz s).
  - destruct s; reflexivity.
  - destruct s; [reflexivity|].
    unfold SF64sqrt, SFsqrt.
    destruct (SFsqrt_core_binary prec emax (Z.pos m) e) as [[mz ez] lz].
    apply binary_round_aux_plus.
Qed.

Lemma eqb_zero_false (u : float) :
  (u =? 0) = false -> forall s, Prim2SF u <> S754_zero s.
Proof.
  rewrite FloatAxioms.eqb_spec. change (Prim2SF 0) with (S754_zero false).
  intros Hne s Hu. rewrite Hu in Hne. discriminate.
Qed.

Lemma inverse_norm_plus (a b w : float) :
  inverse_norm a b = Ok w -> plusSF (Prim2SF w) = true.
Proof.
  unfold inverse_norm. intros Hi.
  apply bind_inv in Hi as (a2 & _ & Hi).
  apply bind_inv in Hi as (b2 & _ & Hi).
  apply bind_inv in Hi as (den & Hden & Hi).
  unfold py.truediv in Hi. destruct (den =? 0) eqn:Ed; [discriminate|].
  injection Hi as <-. rewrite div_spec.
  apply SFdiv_plus; [reflexivity|].
  unfold py.pow_half in Hden.
  destruct (a2 + b2 <? 0); [discriminate|].
  destruct (a2 + b2 =? 0) eqn:Eu.
  - injection Hden as <-. discriminate.
  - injection Hden as <-. rewrite sqrt_spec.
    apply SFsqrt_plus, eqb_zero_false, Eu.
Qed.

Lemma distance_never_below (v w tol : float) :
  plusSF (Prim2SF w) = true -> hopeless tol = true ->
  (abs v * w <? tol) = false.
Proof.
  intros Hw Ht. rewrite ltb_spec, mul_spec, abs_spec.
  assert (Hd : plusSF (SF64mul (SFabs (Prim2SF v)) (Prim2SF w)) = true).
  { apply SFmul_plus; [|assumption]. now destruct (Prim2SF v) as [[]|[]| |[] ? ?]. }
  unfold hopeless in Ht. apply orb_prop in Ht as [Hle | Hnan].
  - apply plus_not_below; [assumption | now apply leb_zero_nonpos].
  - rewrite (is_nan_spec tol Hnan). unfold SFltb.
    now destruct (SF64mul _ _).
Qed.

Lemma nonzero_from_nil (m : list bool) :
  Forall (fun b => b = false) m -> forall i, np.nonzero_from i m = [].
Proof.
  induction 1 as [|b m -> _ IH]; intros i; cbn; auto.
Qed.

Context {P : Type} `{HasPoints P}.

(** X13: with a tolerance that is zero, negative or NaN, [near_transect]
    selects nothing: whenever it returns, both results are empty, since
    no distance is below such a tolerance. *)
Theorem X13_near_transect_hopeless_tolerance (p : P)
    (point1 point2 : float * float) (tol : float)
    (idx : list Z) (coords : list float) :
  hopeless tol = true ->
  near_transect p point1 point2 tol = Ok (idx, coords) ->
  idx = [] /\ coords = [].
Proof.
  destruct point1 as [x1 y1], point2 as [x2 y2]. intros Ht Hn.
  destruct (near_transect_inv p x1 y1 x2 y2 tol idx coords Hn)
    as (a & b & c & w & s & sel_x & sel_y & g1x & g1y
        & _ & Hw & _ & Hidx & Hx & Hy & Hc).
  assert (Hnil : idx = []).
  { rewrite Hidx. apply nonzero_from_nil, Forall_forall.
    intros flag Hin. apply list_elem_of_In, in_map_iff in Hin as (v & <- & _).
    apply distance_never_below; [|assumption].
    eapply inverse_norm_plus; eassumption. }
  split; [assumption|]. subst idx. rewrite Hnil in Hx, Hy.
  cbn in Hx, Hy. injection Hx as <-. injection Hy as <-.
  rewrite Hc. reflexivity.
Qed.
End Hopeless.

Lemma X13_near_transect_hopeless_tolerance_witness :
  near_transect two_points (0, 0)%float (10, 0)%float 0%float = Ok ([], [])
  /\ ([] : list Z) = [] /\ ([] : list float) = [].
Proof.
  split; [reflexivity|].
  apply (X13_near_transect_hopeless_tolerance two_points
           (0, 0)%float (10, 0)%float 0%float [] []); reflexivity.
Defined.

(** ** A stage shorter than the momenta *)

Lemma for_range_ext {St : Type} (body1 body2 : nat -> St -> result St)
    (n : nat) :
  forall i s,
    (forall j s0, i <= j < i + n -> body1 j s0 = body2 j s0) ->
    for_range body1 i n s = for_range body2 i n s.
Proof.
  induction n as [|n IH]; intros i s Hext; cbn; [reflexivity|].
  rewrite Hext by lia. destruct (body2 i s) as [s1|e]; cbn; [|reflexivity].
  apply IH. intros j s0 Hj. apply Hext. lia.
Qed.

Lemma for_range_split {St : Type} (body : nat -> St -> result St) (k m : nat) :
  forall i s,
    for_range body i (k + m) s
    = bind (for_range body i k s) (for_range body (i + k) m).
Proof.
  induction k as [|k IH]; intros i s; cbn.
  - now rewrite Nat.add_0_r.
  - destruct (body i s) as [s1|e]; cbn; [|reflexivity].
    rewrite IH. now replace (S i + k) with (i + S k) by lia.
Qed.

Lemma first_rows_shaped (n T N : nat) (M : ndarray2) :
  shaped T N M = true -> n <= T -> shaped n N (first_rows n M) = true.
Proof.
  intros HM Hn. destruct (shaped_elim _ _ _ HM) as (Hr & Hc & Hl).
  apply shaped_intro; cbn.
  - unfold np.nrows in *. cbn. rewrite length_firstn. lia.
  - assumption.
  - intros t r Ht. apply (Hl t).
    change (firstn n (np.rows M)) with (take n (np.rows M)) in Ht.
    apply lookup_take_Some in Ht. tauto.
Qed.

Lemma first_rows_getrow (n : nat) (M : ndarray2) (j : nat) :
  j < n -> np.getrow (first_rows n M) j = np.getrow M j.
Proof.
  intros Hj. unfold np.getrow, first_rows. cbn.
  change (firstn n (np.rows M)) with (take n (np.rows M)).
  now rewrite lookup_take_lt by assumption.
Qed.

Section ShortStage.
Local Open Scope float_scope.
Variable NetCDFFile : string -> result sww.

(** X14: when the momenta have [T] time steps and the stage only [T' < T]
    (all on [N] points, like the elevation), [read_output] fails with
    [IndexError]: the loop runs over the rows of [xmom] and asks the stage
    for a row it does not have. *)
Theorem X14_read_output_short_stage (filename : string) (h : float)
    (x y elev time : list float) (stage xmom ymom : ndarray2)
    (vols : list (Z * Z * Z)) (T T' N : nat) :
  NetCDFFile filename
  = Ok (Sww (Some x) (Some y) (Some stage) (Some elev) (Some xmom)
            (Some ymom) (Some time) (Some vols)) ->
  shaped T N xmom = true -> shaped T N ymom = true ->
  shaped T' N stage = true -> length elev = N -> T' < T ->
  read_output NetCDFFile filename h = Raise "IndexError".
Proof.
  intros Hopen Hxm Hym Hst He HT.
  destruct (shaped_elim _ _ _ Hxm) as (Hxr & Hxc & Hxl).
  destruct (shaped_elim _ _ _ Hst) as (Hsr & _ & _).
  unfold read_output. rewrite Hopen. cbn [bind getValue var_x var_y
    var_stage var_elevation var_xmomentum var_ymomentum var_time
    var_volumes].
  change (read_output_body xmom ymom stage elev h)
    with (centroid_body velocity_row xmom ymom stage elev h).
  rewrite Hxr. replace T with (T' + S (T - T' - 1))%nat at 1 by lia.
  rewrite for_range_split.
  rewrite (for_range_ext _
             (centroid_body velocity_row (first_rows T' xmom)
                (first_rows T' ymom) stage elev h)).
  2:{ intros j [X Y] Hj. unfold centroid_body.
      now rewrite !first_rows_getrow by lia. }
  assert (Hrow : forall r s, length r = N -> length s = N ->
            velocity_row r s elev h = Ok (velocity_list r s elev h)
            /\ length (velocity_list r s elev h) = N).
  { intros r s Hr Hs. split.
    - apply (velocity_row_Ok r s elev h N); assumption.
    - apply velocity_list_length; assumption. }
  destruct (centroid_body_loop velocity_row
              (fun r s => velocity_list r s elev h) N T' elev h
              (first_rows T' xmom) (first_rows T' ymom) stage Hrow
              (first_rows_shaped T' T N xmom Hxm ltac:(lia))
              (first_rows_shaped T' T N ymom Hym ltac:(lia)) Hst
              (np.map2 (fun v => v * 0) xmom) (np.map2 (fun v => v * 0) ymom)
              T')
    as (xvel & yvel & Hloop & _ & _);
    try (destruct (mul0_shaped T N xmom Hxm); lia);
    try (destruct (mul0_shaped T N ymom Hym); lia); try lia.
  rewrite Hloop. cbn [bind for_range Nat.add].
  unfold centroid_body at 1.
  destruct (lookup_lt_is_Some_2 (np.rows xmom) T') as [rx Erx];
    [unfold np.nrows in Hxr; lia|].
  rewrite (getrow_Ok _ _ _ Erx). cbn [bind].
  unfold np.getrow at 1.
  rewrite (lookup_ge_None_2 (np.rows stage) T')
    by (unfold np.nrows in Hsr; lia).
  reflexivity.
Qed.
End ShortStage.

Lemma X14_read_output_short_stage_witness :
  read_output more_files "short_stage.sww" h_default = Raise "IndexError".
Proof.
  eapply (X14_read_output_short_stage more_files "short_stage.sww"
            h_default _ _ _ _ _ _ _ _ 2 1 3); first [reflexivity | lia].
Defined.

(** ** Failures of [near_transect] before any point is selected *)

Section TransectFailures.
Local Open Scope float_scope.

Lemma opp_finite (g : float) : is_finite (- g) = is_finite g.
Proof.
  rewrite !is_finite_spec, opp_spec. now destruct (Prim2SF g).
Qed.

Lemma opp_square (g : float) : - g * - g = g * g.
Proof.
  apply Prim2SF_eq. rewrite !mul_spec, opp_spec.
  destruct (Prim2SF g) as [s|s| |s m e]; cbn; try reflexivity;
    now destruct s.
Qed.

Context {P : Type} `{HasPoints P}.

(** X15: when the line equation and its norm can be computed but [p.x] and
    [p.y] have lengths that do not broadcast (they differ and neither is
    1), [near_transect] fails with [ValueError]. *)
Theorem X15_near_transect_ragged_points (p : P) (x1 y1 x2 y2 tol : float)
    (a b c w : float) :
  line_equation x1 y1 x2 y2 = Ok (a, b, c) ->
  inverse_norm a b = Ok w ->
  np.compatible (length (points_x p)) (length (points_y p)) = false ->
  near_transect p (x1, y1) (x2, y2) tol = Raise "ValueError".
Proof.
  intros Hline Hw Hc. unfold near_transect. cbn [fst snd].
  rewrite Hline. cbn [bind]. unfold inverse_norm in Hw.
  apply bind_inv in Hw as (a2 & -> & Hw). cbn [bind].
  apply bind_inv in Hw as (b2 & -> & Hw). cbn [bind].
  apply bind_inv in Hw as (den & -> & Hw). cbn [bind].
  rewrite Hw. cbn [bind].
  unfold np.broadcast at 1. rewrite !length_map, Hc. reflexivity.
Qed.

(** X16: for endpoints with different [x] whose line is so steep that the
    square of its gradient [(y2-y1)/(x2-x1)] overflows, [near_transect]
    fails with [OverflowError], whatever the points. *)
Theorem X16_near_transect_steep_line (p : P) (x1 y1 x2 y2 tol : float) :
  (x1 =? x2) = false -> (x2 - x1 =? 0) = false ->
  is_finite ((y2 - y1) / (x2 - x1)) = true ->
  is_infinity ((y2 - y1) / (x2 - x1) * ((y2 - y1) / (x2 - x1))) = true ->
  near_transect p (x1, y1) (x2, y2) tol = Raise "OverflowError".
Proof.
  intros Hne Hd Hf Hi. unfold near_transect, line_equation. cbn [fst snd].
  rewrite Hne. cbn [negb]. unfold py.truediv at 1. rewrite Hd. cbn [bind].
  unfold py.pow2 at 1. rewrite opp_finite, opp_square, Hf, Hi. reflexivity.
Qed.
End TransectFailures.

Section TransectFailureExamples.
Local Open Scope float_scope.

Lemma X15_near_transect_ragged_points_witness :
  near_transect ragged_points (0, 0) (10, 0) 1 = Raise "ValueError".
Proof.
  eapply (X15_near_transect_ragged_points ragged_points 0 0 10 0 1);
    reflexivity.
Defined.

Lemma X16_near_transect_steep_line_witness :
  near_transect two_points (0, 0) (0x1p-600, 1) 1 = Raise "OverflowError".
Proof.
  apply (X16_near_transect_steep_line two_points 0 0 0x1p-600 1 1);
    reflexivity.
Defined.
End TransectFailureExamples.
